(** * Synthetic smart-meter data generator ([g.py])

    A shallow embedding of [generate_smart_meter_data] and of the library
    calls it makes, followed by the properties of its two output tables.

    Conventions of the embedding.
    - A [datetime] built by [strptime] with the format ['%d:%m:%Y %H:%M'] has
      zero seconds, and adding whole minutes keeps it so: it is represented by
      the number of minutes elapsed since 0001-01-01 00:00.  Python's datetime
      stops at year 9999, and an addition that leaves the range raises
      [OverflowError].
    - Text is ASCII ([string]); the pattern classes [\d] and [\s] are taken
      on ASCII characters.
    - Floating-point numbers are kept behind an interface ([Float]) that
      offers the operations the script uses; its instance is IEEE 754
      binary64, the format of Python's [float], with the operations
      rounding to nearest, ties to even.  Whatever does not depend on how
      numbers round is proved for every instance of the interface; bounds
      and monotonicity are proved for binary64, from the rounding of each
      operation.
    - The process-wide random source is an explicit state threaded through
      the calls, read from an arbitrary sequence of raw draws, so a property
      proved for every state holds for every outcome of the draws.
    - A [while] loop takes a fuel argument; [OutOfFuel] is not a result of the
      program but the sign that more fuel is needed.
    - The data frames are the lists of their rows.
    - [main] is the list of its effects (prompts, saved files, printed
      lines) on the lines of its standard input. *)

From Stdlib Require Import ZArith QArith Qround Qabs Qpower Lqa Floats.
From Stdlib Require Import List String Ascii Bool Lia.
From Stdlib Require Import Sorting.Sorted Numbers.DecimalString.
Import ListNotations.

Local Open Scope string_scope.
Local Open Scope list_scope.
Local Open Scope Z_scope.

(** ** Text helpers *)

Definition code (c : ascii) : Z := Z.of_nat (nat_of_ascii c).

Definition in_range (lo hi : ascii) (c : ascii) : bool :=
  (code lo <=? code c) && (code c <=? code hi).

(** [\d] *)
Definition is_digit (c : ascii) : bool := in_range "0" "9" c.

(** [\s]: tab, line feed, vertical tab, form feed, carriage return, the four
    separators 28..31 and the space. *)
Definition is_space (c : ascii) : bool :=
  ((9 <=? code c) && (code c <=? 13)) || ((28 <=? code c) && (code c <=? 32)).

Definition digit_value (c : ascii) : Z := code c - 48.

(** [str(n)] for an integer. *)
Definition str_int (n : Z) : string := NilZero.string_of_int (Z.to_int n).

Definition is_upper (c : ascii) : bool := in_range "A" "Z" c.
Definition is_lower (c : ascii) : bool := in_range "a" "z" c.

Definition to_upper (c : ascii) : ascii :=
  if is_lower c then ascii_of_nat (nat_of_ascii c - 32) else c.
Definition to_lower (c : ascii) : ascii :=
  if is_upper c then ascii_of_nat (nat_of_ascii c + 32) else c.

(** [s.replace(a, b)] for single characters. *)
Fixpoint replace_char (a b : ascii) (s : string) : string :=
  match s with
  | EmptyString => EmptyString
  | String c s' => String (if Ascii.eqb c a then b else c) (replace_char a b s')
  end.

(** [s.title()]: a letter that follows a letter is lower-cased, any other
    letter is upper-cased. *)
Fixpoint title_from (previous_is_cased : bool) (s : string) : string :=
  match s with
  | EmptyString => EmptyString
  | String c s' =>
      let cased := is_upper c || is_lower c in
      String (if previous_is_cased then to_lower c else to_upper c)
             (title_from cased s')
  end.

Definition title (s : string) : string := title_from false s.

(** ** Calendar ([datetime]) *)

Definition MINYEAR : Z := 1.
Definition MAXYEAR : Z := 9999.

Definition _is_leap (year : Z) : bool :=
  (year mod 4 =? 0) && (negb (year mod 100 =? 0) || (year mod 400 =? 0)).

Definition _days_before_year (year : Z) : Z :=
  let y := year - 1 in y * 365 + y / 4 - y / 100 + y / 400.

Definition _DAYS_IN_MONTH : list Z :=
  [-1; 31; 28; 31; 30; 31; 30; 31; 31; 30; 31; 30; 31].

Definition _DAYS_BEFORE_MONTH : list Z :=
  [-1; 0; 31; 59; 90; 120; 151; 181; 212; 243; 273; 304; 334].

Definition _days_in_month (year month : Z) : Z :=
  if (month =? 2) && _is_leap year then 29
  else nth (Z.to_nat month) _DAYS_IN_MONTH 0.

Definition _days_before_month (year month : Z) : Z :=
  nth (Z.to_nat month) _DAYS_BEFORE_MONTH 0
  + (if (2 <? month) && _is_leap year then 1 else 0).

Definition _ymd2ord (year month day : Z) : Z :=
  _days_before_year year + _days_before_month year month + day.

(** Minutes since 0001-01-01 00:00. *)
Definition datetime := Z.

Definition minutes_per_day : Z := 1440.

(** [datetime(year, month, day, hour, minute)]; [None] is [ValueError]. *)
Definition make_datetime (year month day hour minute : Z) : option datetime :=
  if (MINYEAR <=? year) && (year <=? MAXYEAR)
     && (1 <=? month) && (month <=? 12)
     && (1 <=? day) && (day <=? _days_in_month year month)
     && (0 <=? hour) && (hour <=? 23)
     && (0 <=? minute) && (minute <=? 59)
  then Some ((_ymd2ord year month day - 1) * minutes_per_day + hour * 60 + minute)
  else None.

(** The last minute of 9999-12-31. *)
Definition MAX_MINUTES : Z := _ymd2ord MAXYEAR 12 31 * minutes_per_day - 1.

(** [t.hour] *)
Definition hour_of (t : datetime) : Z := (t / 60) mod 24.

(** [t + timedelta(minutes=k)]; [None] is [OverflowError].  A [timedelta] holds
    at most 999999999 days, which is more minutes than the calendar has, so
    the one range test covers both the construction of the [timedelta] and
    the addition. *)
Definition add_minutes (t : datetime) (k : Z) : option datetime :=
  let t' := t + k in
  if (0 <=? t') && (t' <=? MAX_MINUTES) then Some t' else None.

(** ** [datetime.strptime(text, '%d:%m:%Y %H:%M')]

    The format is compiled to the regular expression
    [(3[0-1]|[1-2]\d|0[1-9]|[1-9]| [1-9]):(1[0-2]|0[1-9]|[1-9]):(\d\d\d\d)\s+(2[0-3]|[0-1]\d|\d):([0-5]\d|\d)]
    and matched from the start of the text; the first match in the order of
    the alternatives is kept, and text left after it is an error.  A matcher
    returns its candidate matches in that order. *)

Definition matcher (A : Type) := list ascii -> list (A * list ascii).

Definition one (p : ascii -> bool) : matcher Z :=
  fun cs => match cs with
            | c :: rest => if p c then [(digit_value c, rest)] else []
            | [] => []
            end.

Definition two (p q : ascii -> bool) : matcher Z :=
  fun cs => match cs with
            | c :: d :: rest =>
                if p c && q d then [(10 * digit_value c + digit_value d, rest)]
                else []
            | _ => []
            end.

Definition orelse {A} (m1 m2 : matcher A) : matcher A :=
  fun cs => m1 cs ++ m2 cs.

Definition andthen {A B} (m : matcher A) (k : A -> matcher B) : matcher B :=
  fun cs => flat_map (fun '(a, rest) => k a rest) (m cs).

Definition accept {A} (a : A) : matcher A := fun cs => [(a, cs)].

Definition is_char (x : ascii) (c : ascii) : bool := Ascii.eqb c x.

Definition literal (x : ascii) : matcher unit :=
  fun cs => match cs with
            | c :: rest => if is_char x c then [(tt, rest)] else []
            | [] => []
            end.

(** [\s+], longest first. *)
Fixpoint spaces_from (cs : list ascii) : list (unit * list ascii) :=
  match cs with
  | c :: rest => if is_space c then spaces_from rest ++ [(tt, rest)] else []
  | [] => []
  end.

Definition spaces : matcher unit := spaces_from.

Definition day_field : matcher Z :=
  orelse (two (is_char "3") (in_range "0" "1"))
  (orelse (two (in_range "1" "2") is_digit)
  (orelse (two (is_char "0") (in_range "1" "9"))
  (orelse (one (in_range "1" "9"))
          (andthen (literal " ") (fun _ => one (in_range "1" "9")))))).

Definition month_field : matcher Z :=
  orelse (two (is_char "1") (in_range "0" "2"))
  (orelse (two (is_char "0") (in_range "1" "9"))
          (one (in_range "1" "9"))).

Definition year_field : matcher Z :=
  andthen (two is_digit is_digit) (fun hi =>
  andthen (two is_digit is_digit) (fun lo => accept (100 * hi + lo))).

Definition hour_field : matcher Z :=
  orelse (two (is_char "2") (in_range "0" "3"))
  (orelse (two (in_range "0" "1") is_digit)
          (one is_digit)).

Definition minute_field : matcher Z :=
  orelse (two (in_range "0" "5") is_digit) (one is_digit).

Definition format_regex : matcher (Z * Z * Z * Z * Z) :=
  andthen day_field (fun d =>
  andthen (literal ":") (fun _ =>
  andthen month_field (fun m =>
  andthen (literal ":") (fun _ =>
  andthen year_field (fun y =>
  andthen spaces (fun _ =>
  andthen hour_field (fun H =>
  andthen (literal ":") (fun _ =>
  andthen minute_field (fun M => accept (d, m, y, H, M)))))))))).

(** [None] is [ValueError]: no match, unconverted data, or a date that does
    not exist. *)
Definition strptime (text : string) : option datetime :=
  match format_regex (list_ascii_of_string text) with
  | ((d, m, y, H, M), []) :: _ => make_datetime y m d H M
  | _ => None
  end.

(** ** [str(uuid.uuid4())]

    [uuid4] reads 16 bytes from the operating system, seen as one integer
    below 2^128, and stamps the variant and version bits on it; [str] prints
    the 32 hexadecimal digits in groups of 8-4-4-4-12. *)

Definition uuid4 (random_bytes : Z) : Z :=
  let int := random_bytes mod 2 ^ 128 in
  let int := Z.land int (Z.lnot (Z.shiftl 49152 48)) in
  let int := Z.lor int (Z.shiftl 32768 48) in
  let int := Z.land int (Z.lnot (Z.shiftl 61440 64)) in
  Z.lor int (Z.shiftl 4 76).

Definition hex_digit (v : Z) : ascii :=
  if v <? 10 then ascii_of_nat (Z.to_nat (48 + v))
  else ascii_of_nat (Z.to_nat (87 + v)).

(** The [n] hexadecimal digits of [v] that end at bit [4 * skip]. *)
Fixpoint hex_field (n : nat) (skip : Z) (v : Z) : string :=
  match n with
  | O => EmptyString
  | S n' =>
      String (hex_digit ((v / 16 ^ (skip + Z.of_nat n')) mod 16))
             (hex_field n' skip v)
  end.

Definition str_uuid (u : Z) : string :=
  (hex_field 8 24 u ++ "-" ++ hex_field 4 20 u ++ "-" ++ hex_field 4 16 u
   ++ "-" ++ hex_field 4 12 u ++ "-" ++ hex_field 12 0 u)%string.

(** ** Floating-point interface

    The operations of Python's [float] that the script uses.  [lit q] is the
    literal whose decimal value is [q]; [of_int] is the conversion an
    arithmetic operator applies to an [int] operand; [format_1f x] is
    [format(x, '.1f')]. *)

Class Float (F : Type) : Type := {
  lit : Q -> F;
  of_int : Z -> F;
  fadd : F -> F -> F;
  fsub : F -> F -> F;
  fmul : F -> F -> F;
  fdiv : F -> F -> F;
  fltb : F -> F -> bool;
  feqb : F -> F -> bool;
  format_1f : F -> string
}.

Declare Scope pyfloat_scope.
Delimit Scope pyfloat_scope with pf.
Infix "+" := fadd : pyfloat_scope.
Infix "-" := fsub : pyfloat_scope.
Infix "*" := fmul : pyfloat_scope.
Infix "/" := fdiv : pyfloat_scope.
Notation "x <? y" := (fltb x y) : pyfloat_scope.
Notation "x >? y" := (fltb y x) : pyfloat_scope.
Notation "x =? y" := (feqb x y) : pyfloat_scope.

(** [max(a, b)] and [min(a, b)]: the first argument is kept unless the second
    is strictly greater (smaller). *)
Definition py_max {F} `{Float F} (a b : F) : F := if (b >? a)%pf then b else a.
Definition py_min {F} `{Float F} (a b : F) : F := if (b <? a)%pf then b else a.

(** ** The random source

    The state of the [random] module is the sequence of raw draws it has yet
    to hand out.  [random()] is a multiple of 2^-53 in [0, 1);
    [_randbelow(n)] is an integer of [0, n). *)

Definition rng := nat -> Z.

Definition Rand (A : Type) := rng -> A * rng.

Definition ret {A} (a : A) : Rand A := fun g => (a, g).

Definition bind {A B} (m : Rand A) (k : A -> Rand B) : Rand B :=
  fun g => let '(a, g') := m g in k a g'.

Notation "x <- m ;; k" := (bind m (fun x => k))
  (at level 61, m at next level, right associativity).
Notation "' pat <- m ;; k" := (bind m (fun x => match x with pat => k end))
  (at level 61, pat pattern, m at next level, right associativity).

Definition next_draw : Rand Z :=
  fun g => (g O, fun n => g (S n)).

Definition _randbelow (n : Z) : Rand Z :=
  k <- next_draw ;; ret (k mod n).

(** [random.randint(a, b)] *)
Definition randint (a b : Z) : Rand Z :=
  k <- _randbelow (b - a + 1) ;; ret (a + k).

(** [random.choice(seq)], for a sequence that is not empty. *)
Definition choice (seq : list string) : Rand string :=
  i <- _randbelow (Z.of_nat (List.length seq)) ;; ret (nth (Z.to_nat i) seq "").

(** ** Outcomes *)

Inductive exception : Type := ValueError | OverflowError.

Inductive outcome (A : Type) : Type :=
| Returns (a : A)
| Raises (e : exception)
| OutOfFuel.

Arguments Returns {A} a.
Arguments Raises {A} e.
Arguments OutOfFuel {A}.

(** ** Output rows *)

(** A row of the events table. *)
Record event : Type := Event {
  event_meter_id : string;
  event_timestamp : datetime;
  event_type : string;
  event_description : string
}.

Definition event_types : list string :=
  ["POWER_OUTAGE"; "VOLTAGE_SAG"; "VOLTAGE_SWELL";
   "TAMPER_DETECTED"; "METER_COVER_OPENED";
   "CURRENT_IMBALANCE"; "PHASE_FAILURE";
   "HIGH_TEMPERATURE"; "METER_RESET"]%string.

(** ** The generator *)

Section Generator.

Context {F : Type} `{Float F}.

Local Open Scope pyfloat_scope.

(** A row of the measurements table. *)
Record measurement : Type := Measurement {
  meter_id : string;
  timestamp : datetime;
  active_energy_import_kwh : F;
  reactive_energy_import_kvarh : F;
  active_energy_export_kwh : F;
  reactive_energy_export_kvarh : F;
  voltage_phase1_v : F;
  voltage_phase2_v : F;
  voltage_phase3_v : F;
  current_phase1_a : F;
  current_phase2_a : F;
  current_phase3_a : F;
  maximum_demand_kw : F;
  power_factor : F
}.

(** [random.random()] *)
Definition random : Rand F :=
  k <- next_draw ;; ret (of_int (k mod 2 ^ 53)%Z / of_int (2 ^ 53)%Z).

(** [random.uniform(a, b)] *)
Definition uniform (a b : F) : Rand F :=
  r <- random ;; ret (a + (b - a) * r).

Definition BASE_VOLTAGE : F := lit 230.0.
Definition MAX_CURRENT : F := lit 100.0.
Definition MAX_DEMAND_FACTOR : F := lit 0.8.

(** The variables a meter's [while] loop updates. *)
Record meter_state : Type := MeterState {
  current_time : datetime;
  max_demand : F;
  cumulative_energy_import : F;
  cumulative_energy_export : F
}.

(** Lines 54-58: the state a meter starts from ([last_energy_import] is
    never read and is left out). *)
Definition initial_state (start : datetime) : meter_state :=
  MeterState start (lit 0.0) (lit 0.0) (lit 0.0).

(** Line 59 *)
Definition draw_abnormality_factor : Rand F :=
  r <- random ;;
  if r >? lit 0.3 then ret (lit 1.0) else uniform (lit 0.7) (lit 1.3).

(** Line 60 *)
Definition has_abnormality_of (abnormality_factor : F) : bool :=
  negb (abnormality_factor =? lit 1.0).

(** Lines 65-75: the base load of the hour. *)
Definition base_load_factor (hour : Z) : F :=
  if ((0 <=? hour) && (hour <? 6))%Z then lit 0.3
  else if ((6 <=? hour) && (hour <? 9))%Z then lit 0.8
  else if ((9 <=? hour) && (hour <? 17))%Z then lit 0.6
  else if ((17 <=? hour) && (hour <? 20))%Z then lit 0.9
  else lit 0.4.

(** Lines 64-126: the measurement of a step, and the accumulators after it. *)
Definition measure (id : string) (abnormality_factor : F)
    (interval_minutes : Z) (st : meter_state) : Rand (measurement * meter_state) :=
  let hour := hour_of (current_time st) in
  let load_factor := base_load_factor hour in
  jitter <- uniform (lit 0.95) (lit 1.05) ;;
  let load_factor := load_factor * jitter in
  let load_factor := py_min (py_max load_factor (lit 0.2)) (lit 1.0) in
  let current_load_factor := load_factor * abnormality_factor in
  let interval_hours := of_int interval_minutes / lit 60.0 in
  let active_energy_import :=
    cumulative_energy_import st + (current_load_factor * lit 2.5 * interval_hours) in
  let cumulative_energy_import' := active_energy_import in
  export_draw <- random ;;
  let export_factor := if export_draw >? lit 0.7 then lit 0.3 else lit 0.0 in
  let active_energy_export :=
    cumulative_energy_export st + (export_factor * lit 1.5 * interval_hours) in
  let cumulative_energy_export' := active_energy_export in
  let reactive_energy_import := active_energy_import * lit 0.15 in
  let reactive_energy_export := active_energy_export * lit 0.1 in
  u1 <- uniform (lit 0.98) (lit 1.02) ;;
  let voltage_phase1 := BASE_VOLTAGE * u1 in
  u2 <- uniform (lit 0.98) (lit 1.02) ;;
  let voltage_phase2 := BASE_VOLTAGE * u2 in
  u3 <- uniform (lit 0.98) (lit 1.02) ;;
  let voltage_phase3 := BASE_VOLTAGE * u3 in
  w1 <- uniform (lit 0.95) (lit 1.05) ;;
  let current_phase1 := MAX_CURRENT * current_load_factor * w1 in
  w2 <- uniform (lit 0.95) (lit 1.05) ;;
  let current_phase2 := MAX_CURRENT * current_load_factor * w2 in
  w3 <- uniform (lit 0.95) (lit 1.05) ;;
  let current_phase3 := MAX_CURRENT * current_load_factor * w3 in
  power_factor <- uniform (lit 0.92) (lit 0.99) ;;
  let current_demand :=
    current_load_factor * MAX_CURRENT * BASE_VOLTAGE / of_int 1000 in
  let max_demand' := py_max (max_demand st) (current_demand * MAX_DEMAND_FACTOR) in
  ret (Measurement id (current_time st)
         active_energy_import reactive_energy_import
         active_energy_export reactive_energy_export
         voltage_phase1 voltage_phase2 voltage_phase3
         current_phase1 current_phase2 current_phase3
         max_demand' power_factor,
       MeterState (current_time st) max_demand'
         cumulative_energy_import' cumulative_energy_export').

(** Lines 130-144: the event of an abnormal meter, if this step has one. *)
Definition abnormal_condition_events (has_abnormality : bool)
    (abnormality_factor : F) (m : measurement) : Rand (list event) :=
  if has_abnormality then
    anomaly_draw <- random ;;
    if anomaly_draw >? lit 0.95 then
      if abnormality_factor >? lit 1.2 then
        ret [Event (meter_id m) (timestamp m) "VOLTAGE_SWELL"
               ("Voltage swell detected (" ++ format_1f (voltage_phase1_v m) ++ "V)")]
      else if abnormality_factor <? lit 0.8 then
        ret [Event (meter_id m) (timestamp m) "VOLTAGE_SAG"
               ("Voltage sag detected (" ++ format_1f (voltage_phase1_v m) ++ "V)")]
      else
        split_draw <- random ;;
        if split_draw >? lit 0.5 then
          ret [Event (meter_id m) (timestamp m) "CURRENT_IMBALANCE"
                 ("Current imbalance (" ++ format_1f (current_phase1_a m) ++ "A, "
                  ++ format_1f (current_phase2_a m) ++ "A, "
                  ++ format_1f (current_phase3_a m) ++ "A)")]
        else
          ret [Event (meter_id m) (timestamp m) "PHASE_FAILURE"
                 "Phase failure detected"]
    else ret []
  else ret [].

(** Lines 150-161: the text of a random event. *)
Definition random_event_description (event_type : string) : Rand string :=
  if String.eqb event_type "POWER_OUTAGE" then ret "Power outage detected"
  else if String.eqb event_type "TAMPER_DETECTED" then ret "Meter tampering detected"
  else if String.eqb event_type "METER_COVER_OPENED" then ret "Meter cover opened"
  else if String.eqb event_type "HIGH_TEMPERATURE" then
    degrees <- randint 45 70 ;;
    ret ("High temperature (" ++ str_int degrees ++ "Â°C)")%string
  else if String.eqb event_type "METER_RESET" then ret "Meter reset performed"
  else ret (title (replace_char "_" " " event_type)).

(** Lines 147-163: the random event of a step, if it has one. *)
Definition random_events (m : measurement) : Rand (list event) :=
  background_draw <- random ;;
  if background_draw >? lit 0.995 then
    event_type <- choice event_types ;;
    description <- random_event_description event_type ;;
    ret [Event (meter_id m) (timestamp m) event_type description]
  else ret [].

(** Lines 64-163: the body of the [while] loop up to the time advance: the
    row appended to [all_measurements], the rows appended to [all_events],
    and the accumulators. *)
Definition step (id : string) (has_abnormality : bool) (abnormality_factor : F)
    (interval_minutes : Z) (st : meter_state)
  : Rand (measurement * list event * meter_state) :=
  '(m, st') <- measure id abnormality_factor interval_minutes st ;;
  abnormal <- abnormal_condition_events has_abnormality abnormality_factor m ;;
  background <- random_events m ;;
  ret (m, abnormal ++ background, st').

(** Lines 63-166: the [while] loop of one meter.  The condition is tested
    before any fuel is used. *)
Fixpoint while_loop (fuel : nat) (id : string) (has_abnormality : bool)
    (abnormality_factor : F) (interval_minutes : Z) (end_ : datetime)
    (st : meter_state)
    (all_measurements : list measurement) (all_events : list event) (g : rng)
  : outcome (list measurement * list event * rng) :=
  if (current_time st <=? end_)%Z then
    match fuel with
    | O => OutOfFuel
    | S fuel' =>
        let '(m, events, st', g') :=
          step id has_abnormality abnormality_factor interval_minutes st g in
        let all_measurements := all_measurements ++ [m] in
        let all_events := all_events ++ events in
        match add_minutes (current_time st') interval_minutes with
        | None => Raises OverflowError
        | Some t =>
            while_loop fuel' id has_abnormality abnormality_factor
              interval_minutes end_
              (MeterState t (max_demand st') (cumulative_energy_import st')
                 (cumulative_energy_export st'))
              all_measurements all_events g'
        end
    end
  else Returns (all_measurements, all_events, g).

(** Lines 52-166: the loop over the meters. *)
Fixpoint for_meters (fuel : nat) (meter_ids : list string)
    (start end_ : datetime) (interval_minutes : Z)
    (all_measurements : list measurement) (all_events : list event) (g : rng)
  : outcome (list measurement * list event * rng) :=
  match meter_ids with
  | [] => Returns (all_measurements, all_events, g)
  | id :: rest =>
      let '(abnormality_factor, g1) := draw_abnormality_factor g in
      let has_abnormality := has_abnormality_of abnormality_factor in
      match
        while_loop fuel id has_abnormality abnormality_factor interval_minutes
          end_ (initial_state start) all_measurements all_events g1
      with
      | Returns (all_measurements, all_events, g2) =>
          for_meters fuel rest start end_ interval_minutes
            all_measurements all_events g2
      | Raises e => Raises e
      | OutOfFuel => OutOfFuel
      end
  end.

(** Line 24: one identifier per meter, none for a count below one. *)
Definition make_meter_ids (num_meters : Z) (urandom : nat -> Z) : list string :=
  map (fun i => str_uuid (uuid4 (urandom i))) (seq 0 (Z.to_nat num_meters)).

(** [generate_smart_meter_data]: the rows of the two data frames.
    [urandom] is the operating system's random bytes, call by call; [g] is
    the state of the [random] module when the function is entered. *)
Definition generate_smart_meter_data (fuel : nat) (num_meters : Z)
    (start_date end_date : string) (interval_minutes : Z)
    (urandom : nat -> Z) (g : rng)
  : outcome (list measurement * list event) :=
  match strptime start_date with
  | None => Raises ValueError
  | Some start =>
      match strptime end_date with
      | None => Raises ValueError
      | Some end_ =>
          let meter_ids := make_meter_ids num_meters urandom in
          match
            for_meters fuel meter_ids start end_ interval_minutes [] [] g
          with
          | Returns (all_measurements, all_events, _) =>
              Returns (all_measurements, all_events)
          | Raises e => Raises e
          | OutOfFuel => OutOfFuel
          end
      end
  end.

End Generator.

Arguments measurement F : clear implicits.
Arguments meter_state F : clear implicits.

(** ** Decimal text of an exact value

    [format(x, '.1f')] rounds the number [x] stands for to one decimal,
    ties to even. *)

Module Exact.

(** Rounding to the nearest integer, ties to the even one. *)
Definition round_half_even (q : Q) : Z :=
  let f := Qfloor q in
  match (q - inject_Z f ?= 1 # 2)%Q with
  | Lt => f
  | Gt => f + 1
  | Eq => if Z.even f then f else f + 1
  end.

Definition format_1f (q : Q) : string :=
  let tenths := round_half_even (Qabs q * 10) in
  ((if Qle_bool 0 q then "" else "-")
   ++ str_int (tenths / 10) ++ "." ++ str_int (tenths mod 10))%string.

End Exact.

(** ** IEEE 754 binary64

    The instance of the interface on the format of Python's [float], with the
    operations rounding to nearest, ties to even.  Python raises
    [OverflowError] where the conversion of an [int] would give an infinity;
    [generate_smart_meter_data] converts [interval_minutes] only, in a loop
    body whose time advance overflows for an interval of that size, so the
    outcome of the call is the same. *)

Module Binary64.

Definition of_int (z : Z) : float :=
  SF2Prim (binary_normalize prec emax z 0 false).

(** The literals of the script have numerators and denominators below 2^53,
    so one division rounds their decimal value correctly. *)
Definition lit (q : Q) : float :=
  PrimFloat.div (of_int (Qnum q)) (of_int (Zpos (Qden q))).

(** The value of a finite number. *)
Definition to_Q (x : float) : Q :=
  match Prim2SF x with
  | S754_finite s m e =>
      let v := if 0 <=? e then inject_Z (Zpos m * 2 ^ e)
               else Zpos m # Pos.pow 2 (Z.to_pos (- e)) in
      if s then Qopp v else v
  | _ => 0%Q
  end.

Definition format_1f (x : float) : string :=
  match Prim2SF x with
  | S754_zero s => if s then "-0.0" else "0.0"
  | S754_infinity s => if s then "-inf" else "inf"
  | S754_nan => "nan"
  | S754_finite _ _ _ => Exact.format_1f (to_Q x)
  end.

#[global] Instance arithmetic : Float float := {
  lit := lit;
  of_int := of_int;
  fadd := PrimFloat.add;
  fsub := PrimFloat.sub;
  fmul := PrimFloat.mul;
  fdiv := PrimFloat.div;
  fltb := PrimFloat.ltb;
  feqb := PrimFloat.eqb;
  format_1f := format_1f
}.

End Binary64.

(** ** Rounding to nearest, ties to even

    The vocabulary in which an operation of binary64 is compared with the
    exact result it rounds.  Numbers are rationals; [pow2 e] is 2^e. *)

Definition pow2 (e : Z) : Q := (2 ^ e)%Q.

(** Where a number [x], counted in units of the last place, lies with
    respect to the mantissa [m]: on it, below the middle of [m] and [m + 1],
    on the middle, or above it. *)
Definition inbetween (m : Z) (l : location) (x : Q) : Prop :=
  match l with
  | loc_Exact => (x == inject_Z m)%Q
  | loc_Inexact Lt => (inject_Z m < x /\ x < inject_Z m + (1 # 2))%Q
  | loc_Inexact Eq => (x == inject_Z m + (1 # 2))%Q
  | loc_Inexact Gt => (inject_Z m + (1 # 2) < x /\ x < inject_Z m + 1)%Q
  end.

(** A mantissa with its round and sticky bits stands for [x]. *)
Definition represents (mrs : shr_record) (x : Q) : Prop :=
  0 <= shr_m mrs /\ inbetween (shr_m mrs) (loc_of_shr_record mrs) x.

(** [M] is the integer nearest to [x], the even one at a tie. *)
Definition nearest_even (x : Q) (M : Z) : Prop :=
  (inject_Z M - (1 # 2) <= x <= inject_Z M + (1 # 2))%Q /\
  ((x == inject_Z M - (1 # 2) \/ x == inject_Z M + (1 # 2))%Q -> Z.even M = true).

(** The exponent of the last place of the binary64 numbers around [v]:
    [emin] up to 2^(emin + prec), then the one that leaves [prec] digits. *)
Definition canonical_exponent (v : Q) (q : Z) : Prop :=
  (q = emin /\ v < pow2 (emin + prec))%Q \/
  (emin < q /\ (pow2 (q + prec - 1) <= v /\ v < pow2 (q + prec))%Q).

(** The number of mantissa [M] at the exponent [q], for [0 <= M <= 2^prec]:
    a mantissa of 2^prec moves to the next exponent, and an exponent above
    the largest one gives the infinity. *)
Definition fin (M q : Z) : spec_float :=
  match M with
  | Zpos m =>
      if M <? 2 ^ prec then
        if q <=? emax - prec then S754_finite false m q else S754_infinity false
      else
        if q + 1 <=? emax - prec
        then S754_finite false (2 ^ 52)%positive (q + 1)
        else S754_infinity false
  | _ => S754_zero false
  end.

(** [f] is the number [v], which is not negative, rounded to nearest, ties
    to even. *)
Definition Rounds (v : Q) (f : spec_float) : Prop :=
  (0 <= v)%Q /\
  exists M q, canonical_exponent v q /\ nearest_even (v * pow2 (- q)) M /\ f = fin M q.

(** The value of a number that is zero or positive and finite. *)
Definition SFval (f : spec_float) : Q :=
  match f with
  | S754_finite false m e => inject_Z (Zpos m) * pow2 e
  | _ => 0
  end.

Definition nonneg_finite (f : spec_float) : bool :=
  match f with
  | S754_zero false | S754_finite false _ _ => true
  | _ => false
  end.

(** ** Binary64 numbers between bounds *)

(** Plus zero or a positive finite number. *)
Definition finite_nonneg (x : float) : Prop := nonneg_finite (Prim2SF x) = true.

(** A positive finite number. *)
Definition finite_positive (x : float) : Prop :=
  match Prim2SF x with
  | S754_finite false _ _ => True
  | _ => False
  end.

(** Plus zero, a positive finite number, or plus infinity. *)
Definition nonneg (x : float) : Prop :=
  finite_nonneg x \/ Prim2SF x = S754_infinity false.

(** [x] compares with itself: it is not a NaN. *)
Definition ordered (x : float) : Prop := PrimFloat.leb x x = true.

Definition value (x : float) : Q := SFval (Prim2SF x).

(** [a <= b] evaluates to [True]. *)
Definition float_le (a b : float) : Prop := PrimFloat.leb a b = true.

(** [lo <= x <= hi] between finite numbers, none of them negative. *)
Definition within (lo hi x : float) : Prop :=
  finite_nonneg lo /\ finite_nonneg hi /\ finite_nonneg x /\
  float_le lo x /\ float_le x hi.

(** The comparisons [lo <= x <= hi] with the literals [lo] and [hi] hold in
    binary64, and the number [x] stands for lies in the interval
    [[lo, hi]]. *)
Definition lies_in (lo hi : Q) (x : float) : Prop :=
  float_le (lit lo) x /\ float_le x (lit hi) /\
  (lo <= Binary64.to_Q x <= hi)%Q.

(** [random.random()] at the smallest and at the largest raw draw, and
    [random.uniform(a, b)] there. *)
Definition bottom_draw : float :=
  (Binary64.of_int 0 / Binary64.of_int (2 ^ 53))%float.

Definition top_draw : float :=
  (Binary64.of_int (2 ^ 53 - 1) / Binary64.of_int (2 ^ 53))%float.

Definition lowest (a b : float) : float := (a + (b - a) * bottom_draw)%float.

Definition highest (a b : float) : float := (a + (b - a) * top_draw)%float.

(** The ends of the ranges of the generator's intermediate values: the
    value at the lowest draws and the value at the highest ones. *)
Definition load_low : float := (lit 0.3 * lowest (lit 0.95) (lit 1.05))%float.
Definition load_high : float := (lit 0.9 * highest (lit 0.95) (lit 1.05))%float.

Definition abnormality_low : float := lowest (lit 0.7) (lit 1.3).
Definition abnormality_high : float := highest (lit 0.7) (lit 1.3).

Definition current_low : float :=
  (lit 100.0 * (load_low * abnormality_low) * lowest (lit 0.95) (lit 1.05))%float.
Definition current_high : float :=
  (lit 100.0 * (load_high * abnormality_high) * highest (lit 0.95) (lit 1.05))%float.

Definition demand_low : float :=
  (load_low * abnormality_low * lit 100.0 * lit 230.0 / Binary64.of_int 1000
   * lit 0.8)%float.
Definition demand_high : float :=
  (load_high * abnormality_high * lit 100.0 * lit 230.0 / Binary64.of_int 1000
   * lit 0.8)%float.

(** Evaluates a statement on closed binary64 numbers. *)
Ltac closed_float :=
  first
    [ lazymatch goal with |- finite_nonneg _ => unfold finite_nonneg end;
      vm_compute; reflexivity
    | lazymatch goal with |- finite_positive _ => unfold finite_positive end;
      vm_compute; exact I
    | lazymatch goal with |- float_le _ _ => unfold float_le end;
      vm_compute; reflexivity
    | lazymatch goal with |- ordered _ => unfold ordered end;
      vm_compute; reflexivity
    | lazymatch goal with |- within _ _ _ => unfold within, finite_nonneg, float_le end;
      vm_compute; repeat split; reflexivity
    | lazymatch goal with |- Qle _ _ => apply Qle_bool_iff end;
      vm_compute; reflexivity ].

(** Writes the operations of the interface as those of binary64. *)
Ltac binary64_operations :=
  repeat match goal with
  | |- context [@fmul float _ ?a ?b] =>
      change (@fmul float _ a b) with (PrimFloat.mul a b)
  | |- context [@fadd float _ ?a ?b] =>
      change (@fadd float _ a b) with (PrimFloat.add a b)
  | |- context [@fsub float _ ?a ?b] =>
      change (@fsub float _ a b) with (PrimFloat.sub a b)
  | |- context [@fdiv float _ ?a ?b] =>
      change (@fdiv float _ a b) with (PrimFloat.div a b)
  | |- context [@of_int float _ ?a] =>
      change (@of_int float _ a) with (Binary64.of_int a)
  | |- context [@fltb float _ ?a ?b] =>
      change (@fltb float _ a b) with (PrimFloat.ltb a b)
  end.

(** ** Vocabulary of the properties *)

Section Vocabulary.

Context {F : Type} `{Float F}.

(** The rows one meter's [while] loop appends, from the state [st] on: none
    once the time is past [end_]; otherwise the rows of one [step] (for some
    state of the random source), then those of the run from the advanced
    time. *)
Inductive meter_run (id : string) (has_abnormality : bool)
    (abnormality_factor : F) (interval_minutes : Z) (end_ : datetime)
  : meter_state F -> list (measurement F) -> list event -> Prop :=
| run_over st :
    end_ < current_time st ->
    meter_run id has_abnormality abnormality_factor interval_minutes end_ st [] []
| run_step st g m events st' g' t ms es :
    current_time st <= end_ ->
    step id has_abnormality abnormality_factor interval_minutes st g
      = (m, events, st', g') ->
    add_minutes (current_time st') interval_minutes = Some t ->
    meter_run id has_abnormality abnormality_factor interval_minutes end_
      (MeterState t (max_demand st') (cumulative_energy_import st')
         (cumulative_energy_export st')) ms es ->
    meter_run id has_abnormality abnormality_factor interval_minutes end_ st
      (m :: ms) (events ++ es).

(** What the loop over the meters appends for one meter: a run from the
    initial state, with a factor drawn by line 59. *)
Definition block_of_run (interval_minutes : Z) (start end_ : datetime)
    (id : string) (block : list (measurement F) * list event) : Prop :=
  exists abnormality_factor g g1,
    draw_abnormality_factor g = (abnormality_factor, g1) /\
    meter_run id (has_abnormality_of abnormality_factor) abnormality_factor
      interval_minutes end_ (initial_state start) (fst block) (snd block).

(** The two tables are made of one block per meter, in the order of the
    meters; a block holds rows of its meter only, and [P] holds of it. *)
Definition grouped_by_meter
    (P : list (measurement F) -> list event -> Prop)
    (meter_ids : list string)
    (measurements : list (measurement F)) (events : list event) : Prop :=
  exists blocks : list (list (measurement F) * list event),
    measurements = List.concat (map fst blocks) /\
    events = List.concat (map snd blocks) /\
    Forall2
      (fun id block =>
         Forall (fun m => meter_id m = id) (fst block) /\
         Forall (fun e => event_meter_id e = id) (snd block) /\
         P (fst block) (snd block))
      meter_ids blocks.

(** The rows of the measurements table that carry the identifier [id]. *)
Definition measurements_of (id : string) (measurements : list (measurement F))
  : list (measurement F) :=
  filter (fun m => String.eqb (meter_id m) id) measurements.


End Vocabulary.

(** The number of steps from [start] to [end_], both included. *)
Definition steps_between (start end_ : datetime) (interval_minutes : Z) : Z :=
  if start <=? end_ then (end_ - start) / interval_minutes + 1 else 0.

(** The events of a block that carry the timestamp [t]. *)
Definition events_at (t : datetime) (events : list event) : list event :=
  filter (fun e => event_timestamp e =? t) events.

(** The instants of [n] steps from [start]. *)
Definition schedule (start : datetime) (interval_minutes : Z) (n : nat)
  : list datetime :=
  map (fun k => start + Z.of_nat k * interval_minutes) (seq 0 n).

(** Inputs for the examples: the first draw is 0 and every later one is the
    largest, so the first meter is abnormal and every step has both events;
    the meters get distinct identifiers. *)
Definition sample_rng : rng :=
  fun n => match n with O => 0 | S _ => 2 ^ 53 - 1 end.

Definition sample_urandom : nat -> Z := fun n => Z.of_nat n.

(** Evaluates the look-ups in the month tables once the month is known. *)
Ltac eval_month_tables :=
  repeat match goal with
  | |- context [nth ?i ?l ?d] =>
      let v := eval vm_compute in (nth i l d) in change (nth i l d) with v
  | H : context [nth ?i ?l ?d] |- _ =>
      let v := eval vm_compute in (nth i l d) in change (nth i l d) with v in H
  | |- context [Z.eqb (Zpos ?a) (Zpos ?b)] =>
      let v := eval vm_compute in (Z.eqb (Zpos a) (Zpos b)) in
      change (Z.eqb (Zpos a) (Zpos b)) with v
  | H : context [Z.eqb (Zpos ?a) (Zpos ?b)] |- _ =>
      let v := eval vm_compute in (Z.eqb (Zpos a) (Zpos b)) in
      change (Z.eqb (Zpos a) (Zpos b)) with v in H
  | |- context [Z.ltb (Zpos ?a) (Zpos ?b)] =>
      let v := eval vm_compute in (Z.ltb (Zpos a) (Zpos b)) in
      change (Z.ltb (Zpos a) (Zpos b)) with v
  end; cbn [andb] in *.

(** ** The command-line entry point ([main])

    [int(text)] reads a decimal integer: blanks on both sides, an optional
    sign, then digits that single underscores may separate.  The blanks of
    [int] are the tab, the line feed, the vertical tab, the form feed, the
    carriage return and the space; the separators 28..31, which [\s]
    matches, are not among them.  More than 4300 digits are refused (the
    default limit since Python 3.11).  [None] is [ValueError]. *)

Definition is_blank (c : ascii) : bool :=
  ((9 <=? code c) && (code c <=? 13)) || (code c =? 32).

Fixpoint drop_blanks (cs : list ascii) : list ascii :=
  match cs with
  | c :: rest => if is_blank c then drop_blanks rest else cs
  | [] => []
  end.

Definition strip (cs : list ascii) : list ascii :=
  rev (drop_blanks (rev (drop_blanks cs))).

(** The digits after the first one, with the value read so far. *)
Fixpoint digits_from (value : Z) (cs : list ascii) : option Z :=
  match cs with
  | [] => Some value
  | c :: rest =>
      if is_digit c then digits_from (10 * value + digit_value c) rest
      else if is_char "_" c then
        match rest with
        | d :: rest' =>
            if is_digit d then digits_from (10 * value + digit_value d) rest'
            else None
        | [] => None
        end
      else None
  end.

Definition int_max_str_digits : nat := 4300.

Definition py_int (text : string) : option Z :=
  let cs := strip (list_ascii_of_string text) in
  let '(negative, body) :=
    match cs with
    | c :: rest =>
        if is_char "-" c then (true, rest)
        else if is_char "+" c then (false, rest)
        else (false, cs)
    | [] => (false, cs)
    end in
  match body with
  | d :: rest =>
      if is_digit d
         && (List.length (filter is_digit body) <=? int_max_str_digits)%nat
      then option_map (fun v => if negative then - v else v)
                      (digits_from (digit_value d) rest)
      else None
  | [] => None
  end.

Definition newline : string := String "010" EmptyString.

(** The line [main] prints after saving the files. *)
Definition summary_line (measurements events : nat) : string :=
  (newline ++ "Generated " ++ str_int (Z.of_nat measurements)
   ++ " measurements and " ++ str_int (Z.of_nat events) ++ " events")%string.

(** How [main] ends: it returns, an exception of the generator or of [int]
    escapes, [input] finds the end of the input ([EOFError]), or the fuel of
    the generator's loop runs out. *)
Inductive main_outcome : Type :=
| Finished
| Failed (e : exception)
| EndOfInput
| Unfinished.

Section Main.

Context {F : Type} `{Float F}.

(** What [main] does to the outside, in order.  The text a data frame is
    printed or saved as is the business of the data-frame library: the effect
    records the rows.  The files are taken to be writable. *)
Inductive effect : Type :=
| Prompted (text : string)
| Printed (text : string)
| PrintedMeasurements (rows : list (measurement F))
| PrintedEvents (rows : list event)
| SavedMeasurements (path : string) (rows : list (measurement F))
| SavedEvents (path : string) (rows : list event).

(** Lines 187-200: what follows a generation that returned. *)
Definition report (measurements : list (measurement F)) (events : list event)
  : list effect :=
  [SavedMeasurements "./smart_meter_measurements.csv" measurements;
   SavedEvents "./smart_meter_events.csv" events;
   Printed (summary_line (List.length measurements) (List.length events));
   Printed "Files saved:";
   Printed "- smart_meter_measurements.csv";
   Printed "- smart_meter_events.csv";
   Printed (newline ++ "Sample measurements:");
   PrintedMeasurements (firstn 3 measurements);
   Printed (newline ++ "Sample events:");
   PrintedEvents (firstn 3 events)].

(** [main()], on the lines of the standard input. *)
Definition main (fuel : nat) (stdin : list string) (urandom : nat -> Z) (g : rng)
  : list effect * main_outcome :=
  let shown := [Prompted "Enter number of smart meters: "] in
  match stdin with
  | [] => (shown, EndOfInput)
  | line :: stdin =>
  match py_int line with
  | None => (shown, Failed ValueError)
  | Some num_meters =>
  let shown := shown ++ [Prompted "Enter start date (dd:mm:yyyy HH:MM): "] in
  match stdin with
  | [] => (shown, EndOfInput)
  | start_date :: stdin =>
  let shown := shown ++ [Prompted "Enter end date (dd:mm:yyyy HH:MM): "] in
  match stdin with
  | [] => (shown, EndOfInput)
  | end_date :: stdin =>
  let shown := shown ++ [Prompted "Enter interval in minutes (15 or 30): "] in
  match stdin with
  | [] => (shown, EndOfInput)
  | line :: _ =>
  match py_int line with
  | None => (shown, Failed ValueError)
  | Some interval =>
  match
    generate_smart_meter_data fuel num_meters start_date end_date interval
      urandom g
  with
  | Returns (measurements, events) =>
      (shown ++ report measurements events, Finished)
  | Raises e => (shown, Failed e)
  | OutOfFuel => (shown, Unfinished)
  end end end end end end end.

End Main.

Arguments effect F : clear implicits.

(** The effect is a prompt of [input]. *)
Definition is_prompt {F} (e : effect F) : Prop :=
  match e with Prompted _ => True | _ => False end.

(** * Properties *)

(** ** The library models on examples *)

Example strptime_new_year_2024 : strptime "01:01:2024 00:00" = Some 1063994400.
Proof. reflexivity. Qed.

Example strptime_unpadded : strptime "1:1:2024  0:0" = strptime "01:01:2024 00:00".
Proof. reflexivity. Qed.

Example strptime_last_minute : strptime "31:12:9999 23:59" = Some MAX_MINUTES.
Proof. reflexivity. Qed.

Example strptime_first_minute : strptime "01:01:0001 00:00" = Some 0.
Proof. reflexivity. Qed.

Example strptime_no_30th_of_february : strptime "30:02:2024 00:00" = None.
Proof. reflexivity. Qed.

Example strptime_trailing_text : strptime "01:01:2024 00:75" = None.
Proof. reflexivity. Qed.

Example strptime_iso_text : strptime "2024-01-01 00:00" = None.
Proof. reflexivity. Qed.

Example hour_of_half_past_five :
  option_map hour_of (strptime "15:06:2024 17:30") = Some 17.
Proof. reflexivity. Qed.

Example str_uuid_of_zero_bytes :
  str_uuid (uuid4 0) = "00000000-0000-4000-8000-000000000000".
Proof. reflexivity. Qed.

Example str_uuid_of_one_bytes :
  str_uuid (uuid4 (2 ^ 128 - 1)) = "ffffffff-ffff-4fff-bfff-ffffffffffff".
Proof. reflexivity. Qed.

Example format_1f_of_a_voltage : Exact.format_1f 230.449%Q = "230.4".
Proof. reflexivity. Qed.

Example format_1f_of_a_tie : Exact.format_1f 99.25%Q = "99.2".
Proof. reflexivity. Qed.

Example title_of_an_event_type :
  title (replace_char "_" " " "VOLTAGE_SAG") = "Voltage Sag".
Proof. reflexivity. Qed.

Example description_of_a_high_temperature :
  fst (random_event_description "HIGH_TEMPERATURE" (fun _ => 30))
  = "High temperature (49Â°C)".
Proof. reflexivity. Qed.

(** ** Binary64 on examples

    The values below are those Python's [float] arithmetic gives for the same
    expressions. *)

Example binary64_format_1f :
  Binary64.format_1f (Binary64.lit 234.65) = "234.7".
Proof. vm_compute. reflexivity. Qed.

(** The draws 0 and 2^53 - 1 give the two ends of [random.uniform]. *)
Example binary64_voltage_at_the_extreme_draws :
  let lowest := fst (uniform (F := float) (lit 0.98) (lit 1.02) (fun _ => 0)) in
  let highest :=
    fst (uniform (F := float) (lit 0.98) (lit 1.02) (fun _ => 2 ^ 53 - 1)) in
  PrimFloat.leb (lit 225.4) (BASE_VOLTAGE * lowest)%pf = true /\
  PrimFloat.leb (BASE_VOLTAGE * highest)%pf (lit 234.6) = true.
Proof. vm_compute. split; reflexivity. Qed.

Example binary64_power_factor_at_the_extreme_draws :
  let lowest := fst (uniform (F := float) (lit 0.92) (lit 0.99) (fun _ => 0)) in
  let highest :=
    fst (uniform (F := float) (lit 0.92) (lit 0.99) (fun _ => 2 ^ 53 - 1)) in
  PrimFloat.leb (lit 0.92) lowest = true /\
  PrimFloat.leb highest (lit 0.99) = true.
Proof. vm_compute. split; reflexivity. Qed.

(** Two meters over two steps: the first meter draws the factor
    0.7 + 0.6 * (1 - 2^-53), above 1.2. *)
Example binary64_sample_run :
  match
    generate_smart_meter_data (F := float) 2 2
      "01:01:2024 00:00" "01:01:2024 00:30" 30 sample_urandom sample_rng
  with
  | Returns (ms, es) =>
      map (fun m => (meter_id m, timestamp m,
                     format_1f (active_energy_import_kwh m))) ms
      = [("00000000-0000-4000-8000-000000000000", 1063994400, "0.5");
         ("00000000-0000-4000-8000-000000000000", 1063994430, "1.0");
         ("00000000-0000-4000-8000-000000000001", 1063994400, "0.4");
         ("00000000-0000-4000-8000-000000000001", 1063994430, "0.8")] /\
      map (fun e => (event_timestamp e, event_type e, event_description e)) es
      = [(1063994400, "VOLTAGE_SWELL", "Voltage swell detected (234.6V)");
         (1063994400, "METER_COVER_OPENED", "Meter cover opened");
         (1063994430, "VOLTAGE_SWELL", "Voltage swell detected (234.6V)");
         (1063994430, "METER_COVER_OPENED", "Meter cover opened");
         (1063994400, "METER_COVER_OPENED", "Meter cover opened");
         (1063994430, "METER_COVER_OPENED", "Meter cover opened")]
  | _ => False
  end.
Proof. vm_compute. split; reflexivity. Qed.

(** ** Calendar *)

Lemma days_within_year year month day :
  1 <= month <= 12 -> 1 <= day <= _days_in_month year month ->
  1 <= _days_before_month year month + day
       <= 365 + (if _is_leap year then 1 else 0).
Proof.
  intros Hm Hd.
  unfold _days_in_month, _days_before_month in *.
  assert (C : month = 1 \/ month = 2 \/ month = 3 \/ month = 4 \/ month = 5 \/ month = 6 \/
               month = 7 \/ month = 8 \/ month = 9 \/ month = 10 \/ month = 11 \/ month = 12) by lia.
  destruct (_is_leap year);
  repeat destruct C as [C | C]; subst month; eval_month_tables; lia.
Qed.

Lemma days_before_year_range year :
  1 <= year <= 9999 ->
  0 <= _days_before_year year /\
  _days_before_year year + 365 + (if _is_leap year then 1 else 0) <= 3652059.
Proof.
  intros Hy. unfold _days_before_year, _is_leap.
  destruct (year mod 4 =? 0) eqn:E4; destruct (year mod 100 =? 0) eqn:E100;
    destruct (year mod 400 =? 0) eqn:E400; cbn [andb orb negb];
    rewrite ?Z.eqb_eq, ?Z.eqb_neq in *;
    Z.div_mod_to_equations; lia.
Qed.

Lemma make_datetime_range year month day hour minute t :
  make_datetime year month day hour minute = Some t -> 0 <= t <= MAX_MINUTES.
Proof.
  unfold make_datetime.
  destruct (_ && _) eqn:E; [|discriminate].
  intros [= <-].
  repeat (apply andb_prop in E; destruct E as [E ?]).
  repeat match goal with H : (_ <=? _) = true |- _ => apply Z.leb_le in H end.
  unfold MINYEAR, MAXYEAR in *.
  pose proof (days_within_year year month day ltac:(lia) ltac:(lia)).
  pose proof (days_before_year_range year ltac:(lia)).
  change MAX_MINUTES with 5258964959.
  unfold _ymd2ord, minutes_per_day.
  destruct (_is_leap year); lia.
Qed.

Lemma strptime_range text t : strptime text = Some t -> 0 <= t <= MAX_MINUTES.
Proof.
  unfold strptime.
  destruct (format_regex _) as [|[[[[[d m] y] H] M] [|? ?]] ?]; try discriminate.
  apply make_datetime_range.
Qed.

(** ** The generator, for every arithmetic *)

Section GeneratorFacts.

Context {F : Type} `{Float F}.

(** The parts of a [step]. *)
Lemma step_parts id ha af i (st : meter_state F) g m events st' g' :
  step id ha af i st g = (m, events, st', g') ->
  exists g1 g2 abnormal background,
    measure id af i st g = (m, st', g1) /\
    abnormal_condition_events ha af m g1 = (abnormal, g2) /\
    random_events m g2 = (background, g') /\
    events = abnormal ++ background.
Proof.
  unfold step, bind.
  destruct (measure id af i st g) as [[m0 st0] g1].
  destruct (abnormal_condition_events ha af m0 g1) as [abnormal g2] eqn:Ea.
  destruct (random_events m0 g2) as [background g3] eqn:Eb.
  unfold ret. intros [= <- <- <- <-].
  exists g1, g2, abnormal, background. auto.
Qed.

Lemma measure_row id af i (st : meter_state F) g m st' g1 :
  measure id af i st g = (m, st', g1) ->
  meter_id m = id /\ timestamp m = current_time st /\
  current_time st' = current_time st /\
  cumulative_energy_import st' = active_energy_import_kwh m /\
  cumulative_energy_export st' = active_energy_export_kwh m /\
  max_demand st' = maximum_demand_kw m /\
  reactive_energy_import_kvarh m = (active_energy_import_kwh m * lit 0.15)%pf /\
  reactive_energy_export_kvarh m = (active_energy_export_kwh m * lit 0.1)%pf.
Proof.
  cbv [measure bind uniform random next_draw ret].
  intros [= <- <- <-]. cbn. repeat split.
Qed.

Lemma abnormal_condition_events_rows ha af (m : measurement F) g events g' :
  abnormal_condition_events ha af m g = (events, g') ->
  (List.length events <= 1)%nat /\
  Forall (fun e => event_meter_id e = meter_id m /\
                   event_timestamp e = timestamp m) events.
Proof.
  destruct ha; cbv [abnormal_condition_events bind random next_draw ret];
    [|intros [= <- <-]; cbn; auto].
  repeat match goal with
         | |- context [if ?b then _ else _] => destruct b
         end;
    intros [= <- <-]; cbn; auto.
Qed.

Lemma random_events_rows (m : measurement F) g events g' :
  random_events m g = (events, g') ->
  (List.length events <= 1)%nat /\
  Forall (fun e => event_meter_id e = meter_id m /\
                   event_timestamp e = timestamp m) events.
Proof.
  cbv [random_events bind random next_draw ret choice random_event_description
         _randbelow randint].
  destruct (fltb _ _); [|intros [= <- <-]; cbn; auto].
  match goal with |- context [nth ?i ?l ?d] => generalize (nth i l d) end.
  intros s.
  repeat match goal with
         | |- context [if ?b then _ else _] => destruct b
         end;
    intros [= <- <-]; cbn; auto.
Qed.

Lemma step_rows id ha af i (st : meter_state F) g m events st' g' :
  step id ha af i st g = (m, events, st', g') ->
  meter_id m = id /\ timestamp m = current_time st /\
  current_time st' = current_time st /\
  (List.length events <= 2)%nat /\
  Forall (fun e => event_meter_id e = id /\
                   event_timestamp e = current_time st) events.
Proof.
  intros Hs. apply step_parts in Hs.
  destruct Hs as (g1 & g2 & abnormal & background & Hm & Ha & Hb & ->).
  apply measure_row in Hm. destruct Hm as (Hid & Hts & Hct & _).
  apply abnormal_condition_events_rows in Ha. destruct Ha as [La Fa].
  apply random_events_rows in Hb. destruct Hb as [Lb Fb].
  rewrite Hid, Hts in *.
  repeat split; auto.
  - rewrite length_app. lia.
  - apply Forall_app; auto.
Qed.

(** *** From the loops to runs *)

Lemma while_loop_run fuel id ha af i end_ :
  forall (st : meter_state F) ams aes g ams' aes' g',
    while_loop fuel id ha af i end_ st ams aes g = Returns (ams', aes', g') ->
    exists ms es,
      ams' = ams ++ ms /\ aes' = aes ++ es /\
      meter_run id ha af i end_ st ms es.
Proof.
  induction fuel as [|fuel IH]; intros st ams aes g ams' aes' g'; cbn [while_loop];
    destruct (current_time st <=? end_) eqn:E; try discriminate;
    try (intros [= <- <- <-]; exists [], []; rewrite !app_nil_r;
         repeat split; constructor; apply Z.leb_gt; exact E).
  destruct (step id ha af i st g) as [[[m events] st'] g1] eqn:Es.
  destruct (add_minutes (current_time st') i) as [t|] eqn:Et; [|discriminate].
  intros Hw. apply IH in Hw. destruct Hw as (ms & es & -> & -> & Hr).
  exists (m :: ms), (events ++ es).
  rewrite <- !app_assoc. repeat split.
  econstructor; eauto. apply Z.leb_le; exact E.
Qed.

Lemma for_meters_blocks fuel start end_ i :
  forall ids (ams : list (measurement F)) aes g ams' aes' g',
    for_meters fuel ids start end_ i ams aes g = Returns (ams', aes', g') ->
    exists blocks,
      ams' = ams ++ List.concat (map fst blocks) /\
      aes' = aes ++ List.concat (map snd blocks) /\
      Forall2 (block_of_run i start end_) ids blocks.
Proof.
  induction ids as [|id ids IH]; intros ams aes g ams' aes' g'; cbn [for_meters].
  - intros [= <- <- <-]. exists []. cbn. rewrite !app_nil_r. auto.
  - destruct (draw_abnormality_factor g) as [af g1] eqn:Ed.
    destruct (while_loop _ _ _ _ _ _ _ _ _ _) as [[[ams1 aes1] g2]| |] eqn:Ew;
      try discriminate.
    intros Hf. apply IH in Hf. destruct Hf as (blocks & -> & -> & Hb).
    apply while_loop_run in Ew. destruct Ew as (ms & es & -> & -> & Hr).
    exists ((ms, es) :: blocks). cbn. rewrite <- !app_assoc.
    repeat split. constructor; auto.
    exists af, g, g1. auto.
Qed.

Lemma generate_blocks fuel n sd ed i urandom g (ms : list (measurement F)) es :
  generate_smart_meter_data fuel n sd ed i urandom g = Returns (ms, es) ->
  exists start end_ blocks,
    strptime sd = Some start /\ strptime ed = Some end_ /\
    ms = List.concat (map fst blocks) /\
    es = List.concat (map snd blocks) /\
    Forall2 (block_of_run i start end_) (make_meter_ids n urandom) blocks.
Proof.
  unfold generate_smart_meter_data.
  destruct (strptime sd) as [start|]; [|discriminate].
  destruct (strptime ed) as [end_|]; [|discriminate].
  destruct (for_meters _ _ _ _ _ _ _ _) as [[[ams aes] g']| |] eqn:Ef;
    try discriminate.
  intros [= <- <-]. apply for_meters_blocks in Ef.
  destruct Ef as (blocks & -> & -> & Hb).
  exists start, end_, blocks. auto.
Qed.

(** *** Properties of a run *)

Lemma run_rows id ha af i end_ (st : meter_state F) ms es :
  meter_run id ha af i end_ st ms es ->
  Forall (fun m => meter_id m = id) ms /\
  Forall (fun e => event_meter_id e = id) es.
Proof.
  induction 1 as [|st g m events st' g' t ms es Hle Hs Ht Hr [IHm IHe]]; auto.
  apply step_rows in Hs. destruct Hs as (Hid & _ & _ & _ & Hev).
  split; [constructor; auto|].
  apply Forall_app; split; auto.
  eapply Forall_impl; [|exact Hev]. cbn. tauto.
Qed.

Lemma add_minutes_sum t k t' : add_minutes t k = Some t' -> t' = t + k.
Proof.
  unfold add_minutes. destruct (_ && _); congruence.
Qed.

Lemma steps_between_unfold t end_ i :
  0 < i -> t <= end_ ->
  steps_between t end_ i = 1 + steps_between (t + i) end_ i.
Proof.
  intros Hi Hle. unfold steps_between.
  destruct (t <=? end_) eqn:E1; [|apply Z.leb_gt in E1; lia].
  destruct (t + i <=? end_) eqn:E2.
  - apply Z.leb_le in E2.
    replace (end_ - t) with ((end_ - (t + i)) + 1 * i) by lia.
    rewrite Z.div_add by lia. lia.
  - apply Z.leb_gt in E2. rewrite Z.div_small by lia. lia.
Qed.

Lemma run_length id ha af i end_ (st : meter_state F) ms es :
  0 < i ->
  meter_run id ha af i end_ st ms es ->
  Z.of_nat (List.length ms) = steps_between (current_time st) end_ i.
Proof.
  intros Hi.
  induction 1 as [st Hgt|st g m events st' g' t ms es Hle Hs Ht Hr IH].
  - unfold steps_between. destruct (_ <=? _) eqn:E; auto.
    apply Z.leb_le in E. lia.
  - apply step_rows in Hs. destruct Hs as (_ & _ & Hct & _).
    apply add_minutes_sum in Ht. cbn [current_time] in IH.
    rewrite steps_between_unfold by assumption.
    cbn [List.length]. rewrite Nat2Z.inj_succ, IH. subst t. rewrite Hct. lia.
Qed.

(** A run that appends a row advances the time: the interval is positive. *)
Lemma run_interval_positive id ha af i end_ (st : meter_state F) ms es :
  meter_run id ha af i end_ st ms es -> ms <> [] -> 0 < i.
Proof.
  induction 1 as [st Hgt|st g m events st' g' t ms es Hle Hs Ht Hr IH];
    [congruence|]. intros _.
  apply step_rows in Hs. destruct Hs as (_ & _ & Hct & _).
  apply add_minutes_sum in Ht.
  inversion Hr; subst; cbn [current_time] in *.
  - lia.
  - apply IH. discriminate.
Qed.

(** The timestamps of a run: first the time of its state, then strictly
    later ones. *)
Lemma run_timestamps id ha af i end_ (st : meter_state F) ms es :
  meter_run id ha af i end_ st ms es ->
  StronglySorted Z.lt (map timestamp ms) /\
  StronglySorted Z.le (map event_timestamp es) /\
  Forall (fun m => current_time st <= timestamp m) ms /\
  Forall (fun e => current_time st <= event_timestamp e) es /\
  Forall (fun e => exists m, In m ms /\ meter_id m = event_meter_id e /\
                             timestamp m = event_timestamp e) es.
Proof.
  intros Hrun.
  induction Hrun as [st Hgt|st g m events st' g' t ms es Hle Hs Ht Hr IH].
  - repeat split; constructor.
  - assert (Hpos : ms = [] \/ 0 < i).
    { destruct ms; [left; reflexivity|right].
      eapply run_interval_positive; eauto. discriminate. }
    assert (Hes : es = [] \/ 0 < i).
    { destruct Hpos as [->|]; auto. inversion Hr; auto. }
    destruct IH as (IH1 & IH2 & IH3 & IH4 & IH5).
    apply step_rows in Hs. destruct Hs as (Hid & Hts & Hct & _ & Hev).
    apply add_minutes_sum in Ht. cbn [current_time] in *. subst t.
    assert (Hms' : Forall (fun m' => current_time st < timestamp m') ms).
    { destruct Hpos as [->|Hi]; [constructor|].
      eapply Forall_impl; [|exact IH3]. cbn. intros; lia. }
    assert (Hes' : Forall (fun e => current_time st <= event_timestamp e) es).
    { destruct Hes as [->|Hi]; [constructor|].
      eapply Forall_impl; [|exact IH4]. cbn. intros; lia. }
    repeat split.
    + cbn. constructor; auto. rewrite Forall_map, Hts. exact Hms'.
    + rewrite map_app. clear IH5.
      induction events as [|e events IHev]; cbn; auto.
      inversion Hev as [|? ? [_ He] Hev']; subst.
      constructor; auto.
      rewrite <- map_app, Forall_map. apply Forall_app. split.
      * eapply Forall_impl; [|exact Hev']. cbn. intros a [_ Ha]. lia.
      * eapply Forall_impl; [|exact Hes']. cbn. intros a Ha. lia.
    + constructor; [lia|].
      eapply Forall_impl; [|exact Hms']. cbn. intros; lia.
    + apply Forall_app. split; auto.
      eapply Forall_impl; [|exact Hev]. cbn. intros a [_ Ha]. lia.
    + apply Forall_app. split.
      * eapply Forall_impl; [|exact Hev]. cbn. intros a [Ha1 Ha2].
        exists m. repeat split; auto; congruence.
      * eapply Forall_impl; [|exact IH5]. cbn. intros a (m' & Hin & Ha).
        exists m'. auto.
Qed.

Lemma events_at_app t es1 es2 :
  events_at t (es1 ++ es2) = events_at t es1 ++ events_at t es2.
Proof. apply filter_app. Qed.

Lemma events_at_none t es :
  Forall (fun e => event_timestamp e <> t) es -> events_at t es = [].
Proof.
  induction 1 as [|e es He _ IH]; cbn; auto.
  destruct (event_timestamp e =? t) eqn:E; auto.
  apply Z.eqb_eq in E. contradiction.
Qed.

Lemma events_at_length t es : (List.length (events_at t es) <= List.length es)%nat.
Proof. apply filter_length_le. Qed.

(** At most two events a step. *)
Lemma run_event_count id ha af i end_ (st : meter_state F) ms es :
  meter_run id ha af i end_ st ms es ->
  (List.length es <= 2 * List.length ms)%nat /\
  forall t, (List.length (events_at t es) <= 2)%nat.
Proof.
  intros Hrun.
  induction Hrun as [st Hgt|st g m events st' g' t ms es Hle Hs Ht Hr [IH1 IH2]].
  - cbn. auto.
  - pose proof (run_timestamps _ _ _ _ _ _ _ _ Hr) as (_ & _ & _ & Hlater & _).
    assert (Hpos : es = [] \/ 0 < i).
    { destruct es; [left; reflexivity|right].
      eapply run_interval_positive; [exact Hr|].
      intros ->. inversion Hr. }
    apply step_rows in Hs. destruct Hs as (_ & _ & Hct & Hlen & Hev).
    apply add_minutes_sum in Ht. cbn [current_time] in *. subst t.
    split.
    + rewrite length_app. cbn [List.length]. lia.
    + intros t. rewrite events_at_app, length_app.
      destruct (Z.eq_dec t (current_time st)) as [->|Hne].
      * rewrite (events_at_none (current_time st) es).
        -- pose proof (events_at_length (current_time st) events). cbn. lia.
        -- destruct Hpos as [->|Hi]; [constructor|].
           eapply Forall_impl; [|exact Hlater]. cbn. intros; lia.
      * rewrite (events_at_none t events).
        -- cbn. apply IH2.
        -- eapply Forall_impl; [|exact Hev]. cbn. intros a [_ Ha]. congruence.
Qed.

(** Every measurement has its reactive energies derived from the active ones. *)
Lemma run_reactive id ha af i end_ (st : meter_state F) ms es :
  meter_run id ha af i end_ st ms es ->
  Forall (fun m =>
    reactive_energy_import_kvarh m = (active_energy_import_kwh m * lit 0.15)%pf /\
    reactive_energy_export_kvarh m = (active_energy_export_kwh m * lit 0.1)%pf) ms.
Proof.
  induction 1 as [|st g m events st' g' t ms es Hle Hs Ht Hr IH]; constructor; auto.
  apply step_parts in Hs. destruct Hs as (g1 & g2 & a & b & Hm & _).
  apply measure_row in Hm. tauto.
Qed.

(** *** Termination *)

Lemma while_loop_past_end fuel id ha af i end_ (st : meter_state F) ams aes g :
  end_ < current_time st ->
  while_loop fuel id ha af i end_ st ams aes g = Returns (ams, aes, g).
Proof.
  intros Hlt. apply Z.leb_gt in Hlt.
  destruct fuel; cbn [while_loop]; rewrite Hlt; reflexivity.
Qed.

Lemma steps_between_nonneg t end_ i : 0 < i -> 0 <= steps_between t end_ i.
Proof.
  intros Hi. unfold steps_between. destruct (t <=? end_) eqn:E; [|lia].
  apply Z.leb_le in E. pose proof (Z.div_pos (end_ - t) i). lia.
Qed.

Lemma while_loop_returns id ha af i end_ :
  0 < i ->
  forall fuel (st : meter_state F) ams aes g,
    0 <= current_time st ->
    (Z.to_nat (steps_between (current_time st) end_ i) <= fuel)%nat ->
    current_time st + steps_between (current_time st) end_ i * i <= MAX_MINUTES ->
    exists ams' aes' g',
      while_loop fuel id ha af i end_ st ams aes g = Returns (ams', aes', g').
Proof.
  intros Hi. induction fuel as [|fuel IH]; intros st ams aes g H0 Hfuel Hfit;
    cbn [while_loop]; destruct (current_time st <=? end_) eqn:E; eauto;
    apply Z.leb_le in E; rewrite (steps_between_unfold _ _ _ Hi E) in Hfuel, Hfit;
    pose proof (steps_between_nonneg (current_time st + i) end_ i Hi) as Hn;
    [lia|].
  destruct (step id ha af i st g) as [[[m events] st'] g1] eqn:Es.
  apply step_rows in Es. destruct Es as (_ & _ & Hct & _).
  unfold add_minutes. rewrite Hct.
  assert (Hin : (0 <=? current_time st + i) && (current_time st + i <=? MAX_MINUTES) = true).
  { apply andb_true_intro. split; apply Z.leb_le; nia. }
  rewrite Hin. apply IH; cbn [current_time]; try lia.
Qed.

Lemma while_loop_overflows id ha af i end_ :
  0 < i ->
  forall fuel (st : meter_state F) ams aes g,
    0 <= current_time st -> current_time st <= end_ ->
    (Z.to_nat (steps_between (current_time st) end_ i) <= fuel)%nat ->
    MAX_MINUTES < current_time st + steps_between (current_time st) end_ i * i ->
    while_loop fuel id ha af i end_ st ams aes g = Raises OverflowError.
Proof.
  intros Hi. induction fuel as [|fuel IH]; intros st ams aes g H0 Hle Hfuel Hfit;
    cbn [while_loop]; pose proof Hle as E; apply Z.leb_le in E; rewrite E;
    rewrite (steps_between_unfold _ _ _ Hi Hle) in Hfuel, Hfit;
    pose proof (steps_between_nonneg (current_time st + i) end_ i Hi) as Hn;
    [lia|].
  destruct (step id ha af i st g) as [[[m events] st'] g1] eqn:Es.
  apply step_rows in Es. destruct Es as (_ & _ & Hct & _).
  unfold add_minutes. rewrite Hct.
  destruct ((0 <=? current_time st + i) && (current_time st + i <=? MAX_MINUTES)) eqn:Hin;
    [|reflexivity].
  apply andb_prop in Hin. destruct Hin as [_ Hin]. apply Z.leb_le in Hin.
  assert (Hnext : current_time st + i <= end_).
  { unfold steps_between in Hfit.
    destruct (current_time st + i <=? end_) eqn:E2; [apply Z.leb_le in E2; lia|lia]. }
  apply IH; cbn [current_time]; try lia.
Qed.

Lemma for_meters_returns fuel start end_ i :
  0 < i -> 0 <= start ->
  (Z.to_nat (steps_between start end_ i) <= fuel)%nat ->
  start + steps_between start end_ i * i <= MAX_MINUTES ->
  forall ids (ams : list (measurement F)) aes g,
    exists ams' aes' g',
      for_meters fuel ids start end_ i ams aes g = Returns (ams', aes', g').
Proof.
  intros Hi H0 Hfuel Hfit.
  induction ids as [|id ids IH]; intros ams aes g; cbn [for_meters]; eauto.
  destruct (draw_abnormality_factor g) as [af g1].
  destruct (while_loop_returns id (has_abnormality_of af) af i end_ Hi fuel
              (initial_state start) ams aes g1 H0 Hfuel Hfit)
    as (ams1 & aes1 & g2 & ->).
  apply IH.
Qed.

Lemma for_meters_past_end fuel start end_ i :
  end_ < start ->
  forall ids (ams : list (measurement F)) aes g,
    exists g', for_meters fuel ids start end_ i ams aes g = Returns (ams, aes, g').
Proof.
  intros Hlt. induction ids as [|id ids IH]; intros ams aes g; cbn [for_meters]; eauto.
  destruct (draw_abnormality_factor g) as [af g1].
  rewrite while_loop_past_end by exact Hlt. apply IH.
Qed.

(** *** Blocks *)

Lemma generate_grouped (P : list (measurement F) -> list event -> Prop)
    fuel n sd ed i urandom g ms es :
  generate_smart_meter_data fuel n sd ed i urandom g = Returns (ms, es) ->
  (forall start end_ id block,
      strptime sd = Some start -> strptime ed = Some end_ ->
      block_of_run i start end_ id block -> P (fst block) (snd block)) ->
  grouped_by_meter P (make_meter_ids n urandom) ms es.
Proof.
  intros Hg HP. apply generate_blocks in Hg.
  destruct Hg as (start & end_ & blocks & Hs & He & -> & -> & Hb).
  exists blocks. repeat split.
  eapply Forall2_impl; [|exact Hb]. intros id block Hrun.
  pose proof (HP _ _ _ _ Hs He Hrun) as HPb.
  destruct Hrun as (af & g0 & g1 & _ & Hrun).
  apply run_rows in Hrun. tauto.
Qed.

Lemma measurements_of_app id (l1 l2 : list (measurement F)) :
  measurements_of id (l1 ++ l2) = measurements_of id l1 ++ measurements_of id l2.
Proof. apply filter_app. Qed.

Lemma measurements_of_same id (l : list (measurement F)) :
  Forall (fun m => meter_id m = id) l -> measurements_of id l = l.
Proof.
  induction 1 as [|m l Hm _ IH]; cbn; auto.
  rewrite Hm, String.eqb_refl. f_equal. exact IH.
Qed.

Lemma measurements_of_other id id' (l : list (measurement F)) :
  id' <> id -> Forall (fun m => meter_id m = id') l -> measurements_of id l = [].
Proof.
  intros Hne. induction 1 as [|m l Hm _ IH]; cbn; auto.
  destruct (String.eqb (meter_id m) id) eqn:E; auto.
  apply String.eqb_eq in E. congruence.
Qed.

(** With distinct identifiers, the rows that carry a meter's identifier are
    the rows of its block. *)
Lemma grouped_measurements_of (P : list (measurement F) -> list event -> Prop)
    ids ms es :
  grouped_by_meter P ids ms es -> NoDup ids ->
  forall id, In id ids ->
    exists es', P (measurements_of id ms) es'.
Proof.
  intros (blocks & -> & _ & HF) Hnd. clear es.
  induction HF as [|id0 block ids blocks (Hm & _ & HP) HF IH]; intros id Hin.
  - inversion Hin.
  - inversion Hnd as [|? ? Hnotin Hnd']; subst. cbn [map List.concat].
    rewrite measurements_of_app.
    assert (Hrest : forall id', ~ In id' ids ->
              measurements_of id' (List.concat (map fst blocks)) = []).
    { clear -HF. intros id'. induction HF as [|id1 b1 ids blocks (Hm1 & _) HF IH];
        intros Hn; cbn [map List.concat]; auto.
      rewrite measurements_of_app, IH by (cbn in Hn; tauto).
      rewrite (measurements_of_other id' id1); auto.
      intros ->. apply Hn. left; reflexivity. }
    destruct (string_dec id id0) as [->|Hne].
    + rewrite measurements_of_same, Hrest, app_nil_r by auto. eauto.
    + rewrite (measurements_of_other id id0), app_nil_l by auto.
      apply IH; auto. destruct Hin; congruence.
Qed.

(** The types of the events of a step. *)
Lemma abnormal_condition_events_types ha af (m : measurement F) g events g' :
  abnormal_condition_events ha af m g = (events, g') ->
  Forall (fun e => In (event_type e) event_types) events.
Proof.
  destruct ha; cbv [abnormal_condition_events bind random next_draw ret];
    [|intros [= <- <-]; constructor].
  repeat match goal with
         | |- context [if ?b then _ else _] => destruct b
         end;
    intros [= <- <-]; try (constructor; [|constructor]); try constructor;
    cbn; tauto.
Qed.

Lemma choice_in seq g : seq <> [] -> In (fst (choice seq g)) seq.
Proof.
  intros Hne. unfold choice, bind, _randbelow, next_draw, ret. cbn [fst].
  apply nth_In.
  assert (Hlen : 0 < Z.of_nat (List.length seq)) by (destruct seq; [congruence|cbn; lia]).
  pose proof (Z.mod_pos_bound (g O) _ Hlen). lia.
Qed.

Lemma random_events_types (m : measurement F) g events g' :
  random_events m g = (events, g') ->
  Forall (fun e => In (event_type e) event_types) events.
Proof.
  unfold random_events, bind.
  destruct (random g) as [background_draw g1].
  destruct (fltb _ _); [|intros [= <- <-]; constructor].
  destruct (choice event_types g1) as [event_type g2] eqn:Ec.
  destruct (random_event_description event_type g2) as [description g3].
  unfold ret. intros [= <- <-]. constructor; [|constructor].
  replace event_type with (fst (choice event_types g1)) by (rewrite Ec; reflexivity).
  apply choice_in. discriminate.
Qed.

Lemma run_event_types id ha af i end_ (st : meter_state F) ms es :
  meter_run id ha af i end_ st ms es ->
  Forall (fun e => In (event_type e) event_types) es.
Proof.
  induction 1 as [|st g m events st' g' t ms es Hle Hs Ht Hr IH]; [constructor|].
  apply step_parts in Hs.
  destruct Hs as (g1 & g2 & abnormal & background & _ & Ha & Hb & ->).
  apply abnormal_condition_events_types in Ha.
  apply random_events_types in Hb.
  repeat (apply Forall_app; split); assumption.
Qed.

(** The timestamps of a run are the instants of its steps. *)
Lemma schedule_cons t i n :
  schedule t i (S n) = t :: schedule (t + i) i n.
Proof.
  unfold schedule. cbn [seq map]. f_equal; [lia|].
  rewrite <- seq_shift, map_map. apply map_ext. intros k. lia.
Qed.

Lemma run_schedule id ha af i end_ (st : meter_state F) ms es :
  meter_run id ha af i end_ st ms es ->
  map timestamp ms = schedule (current_time st) i (List.length ms).
Proof.
  induction 1 as [|st g m events st' g' t ms es Hle Hs Ht Hr IH]; [reflexivity|].
  apply step_rows in Hs. destruct Hs as (_ & Hts & Hct & _).
  apply add_minutes_sum in Ht. cbn [current_time] in IH.
  cbn [map List.length]. rewrite schedule_cons, IH, Hts. subst t.
  rewrite Hct. reflexivity.
Qed.

End GeneratorFacts.

(** ** Rounding in binary64

    The operations of binary64 are specified by [SFmul], [SFadd] and
    [SFdiv], which hand a mantissa, an exponent and a location to
    [binary_round_aux].  That function rounds to nearest, ties to even
    ([binary_round_aux_Rounds]), and rounding is monotone ([Rounds_mono]):
    of two exact results that are not negative, the larger one rounds to the
    larger number. *)

(** *** Powers of two and digits *)

Lemma pow2_pos e : (0 < pow2 e)%Q.
Proof. apply Qpower_0_lt. reflexivity. Qed.

Lemma pow2_add a b : (pow2 (a + b) == pow2 a * pow2 b)%Q.
Proof. apply Qpower_plus. discriminate. Qed.

Lemma pow2_le a b : a <= b -> (pow2 a <= pow2 b)%Q.
Proof. intros. apply Qpower_le_compat_l; [assumption | discriminate]. Qed.

Lemma pow2_Z e : 0 <= e -> (pow2 e == inject_Z (2 ^ e))%Q.
Proof. intros. symmetry. apply (Zpower_Qpower 2 e). assumption. Qed.

Lemma pow2_inv a : (pow2 a * pow2 (- a) == 1)%Q.
Proof. rewrite <- pow2_add. replace (a + - a) with 0 by lia. reflexivity. Qed.

Lemma digits2_size p : digits2_pos p = Pos.size p.
Proof. induction p; simpl; congruence. Qed.

Lemma digits_bounds p :
  2 ^ (Zpos (digits2_pos p) - 1) <= Zpos p < 2 ^ Zpos (digits2_pos p).
Proof.
  rewrite digits2_size. split.
  - pose proof (Pos.size_le p) as H.
    apply (Pos2Z.pos_le_pos) in H. rewrite Pos2Z.inj_pow in H.
    replace (Zpos (Pos.size p)) with (Z.succ (Zpos (Pos.size p) - 1)) in H by lia.
    rewrite Z.pow_succ_r in H by lia. lia.
  - pose proof (Pos.size_gt p) as H.
    apply Pos2Z.pos_lt_pos in H. rewrite Pos2Z.inj_pow in H. exact H.
Qed.


(** *** Shifting a mantissa to the right *)

Lemma represents_ext mrs x y : (x == y)%Q -> represents mrs x -> represents mrs y.
Proof.
  intros E [Hm H]. split; [assumption|].
  destruct (loc_of_shr_record mrs) as [|[| |]]; simpl in *.
  - lra.
  - lra.
  - lra.
  - lra.
Qed.

Lemma inject_xO p : (inject_Z (Zpos p~0) == 2 * inject_Z (Zpos p))%Q.
Proof. rewrite Pos2Z.inj_xO, inject_Z_mult. reflexivity. Qed.

Lemma inject_xI p : (inject_Z (Zpos p~1) == 2 * inject_Z (Zpos p) + 1)%Q.
Proof. rewrite Pos2Z.inj_xI, inject_Z_plus, inject_Z_mult. reflexivity. Qed.

Lemma shr_1_represents mrs x :
  represents mrs x -> represents (shr_1 mrs) (x * (1 # 2)).
Proof.
  destruct mrs as [m r s]. unfold represents.
  destruct m as [|[p|p|]|p]; destruct r, s;
    cbn [shr_1 shr_m loc_of_shr_record inbetween orb];
    intros [Hm H]; try lia; (split; [lia|]);
    try pose proof (inject_xI p); try pose proof (inject_xO p);
    change (inject_Z 1) with 1%Q in *; change (inject_Z 0) with 0%Q in *; lra.
Qed.

Lemma iter_pos_represents n : forall mrs x,
  represents mrs x -> represents (iter_pos shr_1 n mrs) (x * pow2 (- Zpos n)).
Proof.
  induction n as [n IH|n IH|]; intros mrs x H; cbn [iter_pos].
  - apply shr_1_represents, IH, IH in H.
    revert H. apply represents_ext.
    assert (E : (pow2 (- Zpos n~1) == pow2 (- Zpos n) * pow2 (- Zpos n) * (1 # 2))%Q).
    { rewrite <- !pow2_add. change (1 # 2)%Q with (pow2 (-1)).
      rewrite <- pow2_add. replace (- Zpos n~1) with (- Zpos n + - Zpos n + -1) by lia.
      reflexivity. }
    rewrite E. ring.
  - apply IH, IH in H.
    revert H. apply represents_ext.
    assert (E : (pow2 (- Zpos n~0) == pow2 (- Zpos n) * pow2 (- Zpos n))%Q).
    { rewrite <- !pow2_add. replace (- Zpos n~0) with (- Zpos n + - Zpos n) by lia.
      reflexivity. }
    rewrite E. ring.
  - apply shr_1_represents in H. exact H.
Qed.

Lemma shr_represents mrs e n x :
  represents mrs x ->
  snd (shr mrs e n) = e + Z.max 0 n /\
  represents (fst (shr mrs e n)) (x * pow2 (e - snd (shr mrs e n))).
Proof.
  intros H. destruct n as [|p|p]; cbn [shr fst snd].
  - split; [lia|]. revert H. apply represents_ext.
    replace (e - e) with 0 by lia. change (pow2 0) with 1%Q. ring.
  - split; [lia|]. apply (iter_pos_represents p) in H.
    revert H. apply represents_ext.
    replace (e - (e + Zpos p)) with (- Zpos p) by lia. reflexivity.
  - split; [lia|]. revert H. apply represents_ext.
    replace (e - e) with 0 by lia. change (pow2 0) with 1%Q. ring.
Qed.

(** *** The nearest integer *)

Lemma round_nearest_even_represents mrs x :
  represents mrs x ->
  nearest_even x (round_nearest_even (shr_m mrs) (loc_of_shr_record mrs)).
Proof.
  intros [Hm H]. unfold nearest_even.
  destruct (loc_of_shr_record mrs) as [|[| |]]; simpl in *.
  - split; [lra|]. intros [E|E]; lra.
  - destruct (Z.even (shr_m mrs)) eqn:Ev.
    + split; [lra|]. intros _. exact Ev.
    + rewrite inject_Z_plus. change (inject_Z 1) with 1%Q.
      split; [lra|]. intros _.
      rewrite Z.even_add, Ev. reflexivity.
  - split; [lra|]. intros [E|E]; lra.
  - rewrite inject_Z_plus. change (inject_Z 1) with 1%Q.
    split; [lra|]. intros [E|E]; lra.
Qed.

Lemma nearest_even_mono x y M N :
  nearest_even x M -> nearest_even y N -> (x <= y)%Q -> M <= N.
Proof.
  intros [HM EM] [HN EN] Hxy.
  destruct (Z_le_gt_dec M N) as [|Hgt]; [assumption|exfalso].
  assert (Hq : (inject_Z N + 1 <= inject_Z M)%Q).
  { change 1%Q with (inject_Z 1). rewrite <- inject_Z_plus, <- Zle_Qle. lia. }
  assert (M = N + 1).
  { assert (Hq' : (inject_Z M <= inject_Z (N + 1))%Q).
    { rewrite inject_Z_plus. change (inject_Z 1) with 1%Q. lra. }
    rewrite <- Zle_Qle in Hq'. lia. }
  subst M. rewrite inject_Z_plus in *. change (inject_Z 1) with 1%Q in *.
  assert (E1 : Z.even (N + 1) = true) by (apply EM; left; lra).
  assert (E2 : Z.even N = true) by (apply EN; right; lra).
  rewrite Z.even_add, E2 in E1. discriminate.
Qed.


(** *** Rounding is monotone *)

Lemma canonical_exponent_mono v v' q q' :
  canonical_exponent v q -> canonical_exponent v' q' -> (v <= v')%Q -> q <= q'.
Proof.
  intros H H' Hv.
  destruct (Z_le_gt_dec q q') as [|Hgt]; [assumption|exfalso].
  assert (Hq : emin < q).
  { destruct H' as [[-> _]|[? _]]; lia. }
  destruct H as [[-> _]|[_ [Hlo _]]]; [lia|].
  assert (Hhi : (v' < pow2 (q' + prec))%Q).
  { destruct H' as [[-> ?]|[_ [_ ?]]]; assumption. }
  pose proof (pow2_le (q' + prec) (q + prec - 1) ltac:(lia)). lra.
Qed.

Lemma scaled_lt v q n : (v < pow2 (q + n) -> v * pow2 (- q) < pow2 n)%Q.
Proof.
  intros H. rewrite pow2_add in H.
  pose proof (pow2_inv q). pose proof (pow2_pos q). pose proof (pow2_pos (- q)).
  pose proof (pow2_pos n). nra.
Qed.

Lemma scaled_le v q n : (pow2 (q + n) <= v -> pow2 n <= v * pow2 (- q))%Q.
Proof.
  intros H. rewrite pow2_add in H.
  pose proof (pow2_inv q). pose proof (pow2_pos q). pose proof (pow2_pos (- q)).
  pose proof (pow2_pos n). nra.
Qed.

Lemma scaled_mono v v' q : (v <= v' -> v * pow2 (- q) <= v' * pow2 (- q))%Q.
Proof. intros H. pose proof (pow2_pos (- q)). nra. Qed.

Lemma nearest_even_upper x M n :
  0 <= n -> nearest_even x M -> (x < pow2 n)%Q -> M <= 2 ^ n.
Proof.
  intros Hn [H _] Hx. rewrite (pow2_Z n Hn) in Hx.
  assert (Hq : (inject_Z M < inject_Z (2 ^ n + 1))%Q).
  { rewrite inject_Z_plus. change (inject_Z 1) with 1%Q. lra. }
  rewrite <- Zlt_Qlt in Hq. lia.
Qed.

Lemma nearest_even_lower x M n :
  0 <= n -> nearest_even x M -> (pow2 n <= x)%Q -> 2 ^ n <= M.
Proof.
  intros Hn [H _] Hx. rewrite (pow2_Z n Hn) in Hx.
  assert (Hq : (inject_Z (2 ^ n - 1) < inject_Z M)%Q).
  { unfold Z.sub. rewrite inject_Z_plus. change (inject_Z (- (1))) with (-1)%Q. lra. }
  rewrite <- Zlt_Qlt in Hq. lia.
Qed.

Lemma nearest_even_nonneg x M : nearest_even x M -> (0 <= x)%Q -> 0 <= M.
Proof.
  intros [H _] Hx.
  assert (Hq : (inject_Z (-1) < inject_Z M)%Q).
  { change (inject_Z (-1)) with (-1)%Q. lra. }
  rewrite <- Zlt_Qlt in Hq. lia.
Qed.

Lemma Rounds_mantissa v M q :
  (0 <= v)%Q -> canonical_exponent v q -> nearest_even (v * pow2 (- q)) M ->
  0 <= M <= 2 ^ prec /\ (emin < q -> 2 ^ (prec - 1) <= M).
Proof.
  intros Hv Hq HM. repeat split.
  - apply (nearest_even_nonneg _ _ HM).
    pose proof (pow2_pos (- q)). nra.
  - apply (nearest_even_upper _ _ prec ltac:(discriminate) HM).
    apply scaled_lt. destruct Hq as [[-> ?]|[_ [_ ?]]]; assumption.
  - intros Hn. apply (nearest_even_lower _ _ (prec - 1) ltac:(discriminate) HM).
    apply scaled_le. destruct Hq as [[-> _]|[_ [H _]]]; [lia|].
    replace (q + (prec - 1)) with (q + prec - 1) by lia. exact H.
Qed.

Lemma SFleb_finite m q m' q' :
  q < q' \/ (q = q' /\ (m <= m')%positive) ->
  SFleb (S754_finite false m q) (S754_finite false m' q') = true.
Proof.
  unfold SFleb, SFcompare. intros [H|[-> H]].
  - apply Z.compare_lt_iff in H. rewrite H. reflexivity.
  - rewrite Z.compare_refl. change (Pos.compare_cont Eq m m') with (m ?= m')%positive.
    destruct (m ?= m')%positive eqn:E; try reflexivity.
    exfalso. apply H. exact E.
Qed.

Lemma fin_cases M q :
  0 <= M <= 2 ^ prec ->
  (M = 0 /\ fin M q = S754_zero false) \/
  (0 < M /\ fin M q = S754_infinity false /\
     (emax - prec < q \/ (M = 2 ^ prec /\ emax - prec < q + 1))) \/
  (exists m, M = Zpos m /\ M < 2 ^ prec /\ q <= emax - prec /\
     fin M q = S754_finite false m q) \/
  (M = 2 ^ prec /\ q + 1 <= emax - prec /\
     fin M q = S754_finite false (2 ^ 52)%positive (q + 1)).
Proof.
  intros HM. unfold fin. destruct M as [|m|m]; [left; split; reflexivity| |lia].
  right.
  destruct (Z.ltb_spec (Zpos m) (2 ^ prec)).
  - destruct (Z.leb_spec q (emax - prec)).
    + right. left. exists m. auto.
    + left. split; [lia|]. split; [reflexivity|]. left. assumption.
  - destruct (Z.leb_spec (q + 1) (emax - prec)).
    + right. right. split; [lia|]. split; [assumption|reflexivity].
    + left. split; [lia|]. split; [reflexivity|]. right. split; [lia|assumption].
Qed.

Lemma canonical_exponent_min v q : canonical_exponent v q -> emin <= q.
Proof. intros [[-> _]|[? _]]; lia. Qed.

Lemma pos_le_of_Z m m' : Zpos m <= Zpos m' -> (m <= m')%positive.
Proof. intros H. exact H. Qed.

Theorem Rounds_mono v v' f f' :
  Rounds v f -> Rounds v' f' -> (v <= v')%Q -> SFleb f f' = true.
Proof.
  intros [Hv (M & q & Hq & HM & ->)] [Hv' (M' & q' & Hq' & HM' & ->)] Hle.
  pose proof (canonical_exponent_mono _ _ _ _ Hq Hq' Hle) as Hqq.
  pose proof (canonical_exponent_min _ _ Hq) as Hmin.
  destruct (Rounds_mantissa _ _ _ Hv Hq HM) as [Hb Hn].
  destruct (Rounds_mantissa _ _ _ Hv' Hq' HM') as [Hb' Hn'].
  assert (HMM : q = q' -> M <= M').
  { intros ->. apply (nearest_even_mono _ _ _ _ HM HM').
    apply scaled_mono. assumption. }
  clear Hq Hq' HM HM' Hle Hv Hv'.
  change (2 ^ (prec - 1)) with (Zpos (2 ^ 52)) in *.
  change (2 ^ prec) with (Zpos (2 ^ 53)) in *.
  change emin with (-1074) in *. unfold emax, prec in *.
  destruct (fin_cases M q Hb)
    as [[_ ->]|[(H0 & -> & Hov)|[(m & -> & Hlt & Hq1 & ->)|(-> & Hq1 & ->)]]];
  destruct (fin_cases M' q' Hb')
    as [[Hz' ->]|[(H0' & -> & Hov')|[(m' & -> & Hlt' & Hq1' & ->)|(-> & Hq1' & ->)]]];
    unfold emax, prec in *;
    try reflexivity; try (exfalso; lia);
    apply SFleb_finite.
  - destruct (Z.eq_dec q q') as [E|E]; [right|left; lia].
    split; [exact E|]. apply pos_le_of_Z. lia.
  - left. lia.
  - destruct (Z.eq_dec (q + 1) q') as [E|E]; [right|left; lia].
    split; [exact E|]. apply pos_le_of_Z. lia.
  - destruct (Z.eq_dec q q') as [E|E]; [right|left; lia].
    split; [lia|]. apply Pos.le_refl.
Qed.


(** *** [binary_round_aux] rounds to nearest *)

Lemma inbetween_bounds m l x :
  inbetween m l x -> (inject_Z m <= x /\ x < inject_Z m + 1)%Q.
Proof. destruct l as [|[| |]]; simpl; lra. Qed.

Lemma represents_of_loc m l x :
  0 <= m -> inbetween m l x -> represents (shr_record_of_loc m l) x.
Proof.
  intros Hm H. split; destruct l as [|[| |]]; assumption.
Qed.

Lemma shr_nothing mrs e n : n <= 0 -> shr mrs e n = (mrs, e).
Proof. destruct n; [reflexivity|lia|reflexivity]. Qed.

Lemma digits_le p n : Zpos p < 2 ^ n -> Zpos (digits2_pos p) <= n.
Proof.
  intros H. destruct (digits_bounds p) as [Hlo _].
  destruct (Z_le_gt_dec (Zpos (digits2_pos p)) n) as [|Hgt]; [assumption|exfalso].
  assert (2 ^ n <= 2 ^ (Zpos (digits2_pos p) - 1)).
  { apply Z.pow_le_mono_r; lia. }
  lia.
Qed.

Lemma fexp_eq z : fexp prec emax z = Z.max (z - 53) (-1074).
Proof. reflexivity. Qed.

(** The magnitude of a number given by a mantissa of [d] digits. *)
Lemma canonical_exponent_digits m l x e :
  0 <= m -> inbetween m l x -> e <= fexp prec emax (Zdigits2 m + e) ->
  canonical_exponent (x * pow2 e) (fexp prec emax (Zdigits2 m + e)).
Proof.
  intros Hm Hx He. apply inbetween_bounds in Hx. rewrite fexp_eq in *.
  unfold canonical_exponent. change emin with (-1074). unfold prec.
  pose proof (pow2_pos e) as Hpe.
  destruct m as [|p|p]; [| |lia].
  - cbn [Zdigits2] in *. change (inject_Z 0) with 0%Q in Hx.
    left. split; [lia|].
    pose proof (pow2_le e (-1074 + 53) ltac:(lia)). nra.
  - cbn [Zdigits2] in *. set (d := Zpos (digits2_pos p)) in *.
    destruct (digits_bounds p) as [Hlo Hhi]. fold d in Hlo, Hhi.
    assert (Hd : 0 < d) by (unfold d; lia).
    assert (Hlo' : (pow2 (d - 1) <= x)%Q).
    { rewrite pow2_Z by lia. rewrite Zle_Qle in Hlo. lra. }
    assert (Hhi' : (x < pow2 d)%Q).
    { rewrite pow2_Z by lia.
      assert (Zpos p + 1 <= 2 ^ d) as H1 by lia.
      rewrite Zle_Qle, inject_Z_plus in H1. change (inject_Z 1) with 1%Q in H1. lra. }
    assert (Elo : (pow2 (d - 1 + e) == pow2 (d - 1) * pow2 e)%Q) by apply pow2_add.
    assert (Ehi : (pow2 (d + e) == pow2 d * pow2 e)%Q) by apply pow2_add.
    destruct (Z_le_gt_dec (d + e - 53) (-1074)) as [Hs|Hs].
    + left. split; [lia|].
      pose proof (pow2_le (d + e) (-1074 + 53) ltac:(lia)). nra.
    + right. rewrite Z.max_l by lia. split; [lia|].
      replace (d + e - 53 + 53 - 1) with (d - 1 + e) by lia.
      replace (d + e - 53 + 53) with (d + e) by lia.
      split; nra.
Qed.

Theorem binary_round_aux_Rounds m e l x :
  0 <= m -> inbetween m l x -> e <= fexp prec emax (Zdigits2 m + e) ->
  Rounds (x * pow2 e) (binary_round_aux prec emax false m e l).
Proof.
  intros Hm Hx He.
  pose proof (canonical_exponent_digits m l x e Hm Hx He) as Hq.
  set (q := fexp prec emax (Zdigits2 m + e)) in *.
  assert (Hv : (0 <= x * pow2 e)%Q).
  { apply inbetween_bounds in Hx. pose proof (pow2_pos e).
    assert (0 <= inject_Z m)%Q by (change 0%Q with (inject_Z 0); rewrite <- Zle_Qle; lia).
    nra. }
  split; [exact Hv|].
  unfold binary_round_aux, shr_fexp. fold q.
  pose proof (shr_represents (shr_record_of_loc m l) e (q - e) x
                (represents_of_loc m l x Hm Hx)) as [E1 R1].
  destruct (shr (shr_record_of_loc m l) e (q - e)) as [mrs1 e1].
  cbn [fst snd] in E1, R1. assert (e1 = q) as Eq1 by lia. clear E1. subst e1.
  apply round_nearest_even_represents in R1.
  set (M := round_nearest_even (shr_m mrs1) (loc_of_shr_record mrs1)) in *.
  assert (HM : nearest_even (x * pow2 e * pow2 (- q)) M).
  { destruct R1 as [R1 R2]. 
    assert (E : (x * pow2 (e - q) == x * pow2 e * pow2 (- q))%Q).
    { unfold Z.sub. rewrite pow2_add. ring. }
    split; [rewrite <- E; exact R1|]. rewrite <- E. exact R2. }
  exists M, q. split; [exact Hq|]. split; [exact HM|].
  destruct (Rounds_mantissa _ _ _ Hv Hq HM) as [Hb _].
  pose proof (canonical_exponent_min _ _ Hq) as Hmin. change emin with (-1074) in Hmin.
  unfold fin. cbn [shr_record_of_loc].
  destruct M as [|p|p]; [| |lia].
  - rewrite shr_nothing; [reflexivity|].
    cbn [Zdigits2]. rewrite fexp_eq. lia.
  - destruct (Z.ltb_spec (Zpos p) (2 ^ prec)) as [Hlt|Hge].
    + rewrite shr_nothing; [reflexivity|].
      cbn [Zdigits2]. rewrite fexp_eq. pose proof (digits_le p 53 Hlt). lia.
    + assert (Zpos p = 2 ^ prec) as Ep by lia.
      change (2 ^ prec) with (Zpos (2 ^ 53)) in Ep. injection Ep as ->.
      replace (fexp prec emax (Zdigits2 (Zpos (2 ^ 53)) + q) - q) with 1.
      * reflexivity.
      * rewrite fexp_eq. change (Zdigits2 (Zpos (2 ^ 53))) with 54. lia.
Qed.


(** *** The operations round their exact result *)

Lemma nearest_even_ext x y M : (x == y)%Q -> nearest_even x M -> nearest_even y M.
Proof.
  intros E [H1 H2]. split; [lra|]. intros [H|H]; apply H2; [left|right]; lra.
Qed.

Lemma canonical_exponent_ext v w q :
  (v == w)%Q -> canonical_exponent v q -> canonical_exponent w q.
Proof.
  intros E [[-> H]|[Hq H]]; [left|right]; (split; [auto|lra]).
Qed.

Lemma Rounds_ext v w f : (v == w)%Q -> Rounds v f -> Rounds w f.
Proof.
  intros E [Hv (M & q & Hq & HM & ->)]. split; [lra|].
  exists M, q. split; [exact (canonical_exponent_ext _ _ _ E Hq)|]. split; [|reflexivity].
  revert HM. apply nearest_even_ext. rewrite E. reflexivity.
Qed.

Lemma Rounds_zero : Rounds 0 (S754_zero false).
Proof.
  split; [lra|]. exists 0, emin. split; [|split; [|reflexivity]].
  - left. split; [reflexivity|]. apply pow2_pos.
  - split; [change (inject_Z 0) with 0%Q; lra|].
    change (inject_Z 0) with 0%Q. intros [H|H]; lra.
Qed.

Lemma canonical_digits m e :
  canonical_mantissa prec emax m e = true ->
  fexp prec emax (Zdigits2 (Zpos m) + e) = e /\ Zpos m < 2 ^ prec.
Proof.
  unfold canonical_mantissa. intros H. apply Z.eqb_eq in H.
  split; [exact H|].
  cbn [Zdigits2]. rewrite fexp_eq in H.
  destruct (digits_bounds m) as [_ Hhi].
  assert (Zpos (digits2_pos m) <= 53) by lia.
  assert (2 ^ Zpos (digits2_pos m) <= 2 ^ 53) by (apply Z.pow_le_mono_r; lia).
  unfold prec. lia.
Qed.

Theorem Rounds_float f :
  valid_binary f = true -> nonneg_finite f = true -> Rounds (SFval f) f.
Proof.
  destruct f as [[|]|[|]| |[|] m e]; try discriminate; intros Hv _.
  - apply Rounds_zero.
  - cbn [SFval]. unfold SpecFloat.valid_binary, bounded in Hv.
    apply andb_prop in Hv. destruct Hv as [Hc He]. apply Z.leb_le in He.
    destruct (canonical_digits m e Hc) as [Hq Hm].
    pose proof (binary_round_aux_Rounds (Zpos m) e loc_Exact (inject_Z (Zpos m))
                  ltac:(lia) ltac:(simpl; reflexivity) ltac:(lia)) as [H0 (M & q & Hcq & HM & _)].
    split; [exact H0|]. exists (Zpos m), e. split; [|split].
    + pose proof (canonical_exponent_digits (Zpos m) loc_Exact (inject_Z (Zpos m)) e
                    ltac:(lia) ltac:(simpl; reflexivity) ltac:(lia)) as H.
      rewrite Hq in H. exact H.
    + assert (E : (inject_Z (Zpos m) * pow2 e * pow2 (- e) == inject_Z (Zpos m))%Q).
      { pose proof (pow2_inv e). 
        rewrite <- Qmult_assoc, H. ring. }
      split; [lra|]. intros [H|H]; lra.
    + unfold fin. destruct (Z.ltb_spec (Zpos m) (2 ^ prec)); [|lia].
      destruct (Z.leb_spec e (emax - prec)); [reflexivity|lia].
Qed.

Lemma iter_xO_value m d : Zpos (Pos.iter xO m d) = Zpos m * 2 ^ Zpos d.
Proof.
  induction d as [|d IH] using Pos.peano_ind.
  - cbn [Pos.iter]. lia.
  - rewrite Pos.iter_succ, Pos2Z.inj_xO, IH, Pos2Z.inj_succ, Z.pow_succ_r by lia. lia.
Qed.

Lemma iter_xO_digits m d :
  Zpos (digits2_pos (Pos.iter xO m d)) = Zpos (digits2_pos m) + Zpos d.
Proof.
  induction d as [|d IH] using Pos.peano_ind.
  - cbn [Pos.iter digits2_pos]. lia.
  - rewrite Pos.iter_succ. cbn [digits2_pos]. rewrite Pos2Z.inj_succ, IH. lia.
Qed.

Lemma shl_align_spec m e e' :
  let '(mz, ez) := shl_align m e e' in
  ez = Z.min e e' /\ Zpos mz = Zpos m * 2 ^ (e - ez) /\
  Zpos (digits2_pos mz) + ez = Zpos (digits2_pos m) + e.
Proof.
  unfold shl_align. destruct (e' - e) as [|d|d] eqn:E.
  - rewrite Z.sub_diag, Z.pow_0_r. repeat split; lia.
  - rewrite Z.sub_diag, Z.pow_0_r. repeat split; lia.
  - replace (Z.min e e') with e' by lia. replace (e - e') with (Zpos d) by lia.
    rewrite iter_xO_value. pose proof (iter_xO_digits m d). repeat split; lia.
Qed.

Lemma shifted_value m e ez :
  ez <= e -> (inject_Z (m * 2 ^ (e - ez)) * pow2 ez == inject_Z m * pow2 e)%Q.
Proof.
  intros H. rewrite inject_Z_mult, <- pow2_Z by lia.
  rewrite <- Qmult_assoc, <- pow2_add. replace (e - ez + ez) with e by lia. reflexivity.
Qed.

Theorem binary_round_Rounds m e :
  Rounds (inject_Z (Zpos m) * pow2 e) (binary_round prec emax false m e).
Proof.
  unfold binary_round.
  pose proof (shl_align_spec m e (fexp prec emax (Zpos (digits2_pos m) + e))) as H.
  destruct (shl_align m e (fexp prec emax (Zpos (digits2_pos m) + e))) as [mz ez].
  destruct H as (Hez & Hmz & Hd).
  apply (Rounds_ext (inject_Z (Zpos mz) * pow2 ez)).
  - rewrite Hmz. apply shifted_value. lia.
  - apply binary_round_aux_Rounds; [lia|simpl; reflexivity|].
    cbn [Zdigits2]. rewrite Hd. lia.
Qed.

Theorem binary_normalize_Rounds z e :
  0 <= z -> Rounds (inject_Z z * pow2 e) (binary_normalize prec emax z e false).
Proof.
  intros Hz. destruct z as [|m|m]; [| |lia].
  - apply (Rounds_ext 0); [ring|]. apply Rounds_zero.
  - apply binary_round_Rounds.
Qed.

Lemma digits_ge p n : 2 ^ (n - 1) <= Zpos p -> n <= Zpos (digits2_pos p).
Proof.
  intros H. destruct (digits_bounds p) as [_ Hhi].
  destruct (Z_le_gt_dec n (Zpos (digits2_pos p))) as [|Hgt]; [assumption|exfalso].
  assert (2 ^ Zpos (digits2_pos p) <= 2 ^ (n - 1)).
  { apply Z.pow_le_mono_r; lia. }
  lia.
Qed.

Lemma digits_mul m1 m2 :
  Zpos (digits2_pos m1) + Zpos (digits2_pos m2) - 1 <= Zpos (digits2_pos (m1 * m2)).
Proof.
  apply digits_ge.
  destruct (digits_bounds m1) as [H1 _]. destruct (digits_bounds m2) as [H2 _].
  replace (Zpos (digits2_pos m1) + Zpos (digits2_pos m2) - 1 - 1)
    with ((Zpos (digits2_pos m1) - 1) + (Zpos (digits2_pos m2) - 1)) by lia.
  rewrite Z.pow_add_r by lia. rewrite Pos2Z.inj_mul.
  apply Z.mul_le_mono_nonneg; lia.
Qed.

Lemma valid_finite m e :
  valid_binary (S754_finite false m e) = true ->
  fexp prec emax (Zpos (digits2_pos m) + e) = e /\ Zpos m < 2 ^ prec /\ e <= emax - prec.
Proof.
  unfold SpecFloat.valid_binary, bounded. intros Hv.
  apply andb_prop in Hv. destruct Hv as [Hc He]. apply Z.leb_le in He.
  destruct (canonical_digits m e Hc) as [Hq Hm]. auto.
Qed.

Theorem SFmul_Rounds f1 f2 :
  valid_binary f1 = true -> valid_binary f2 = true ->
  nonneg_finite f1 = true -> nonneg_finite f2 = true ->
  Rounds (SFval f1 * SFval f2) (SFmul prec emax f1 f2).
Proof.
  destruct f1 as [[|]|[|]| |[|] m1 e1]; try discriminate;
  destruct f2 as [[|]|[|]| |[|] m2 e2]; try discriminate;
    intros V1 V2 _ _; cbn [SFmul SFval xorb].
  - apply (Rounds_ext 0); [ring|]. apply Rounds_zero.
  - apply (Rounds_ext 0); [ring|]. apply Rounds_zero.
  - apply (Rounds_ext 0); [ring|]. apply Rounds_zero.
  - destruct (valid_finite _ _ V1) as (Hq1 & _ & _).
    destruct (valid_finite _ _ V2) as (Hq2 & _ & _).
    apply (Rounds_ext (inject_Z (Zpos (m1 * m2)) * pow2 (e1 + e2))).
    + rewrite Pos2Z.inj_mul, inject_Z_mult, pow2_add. ring.
    + apply binary_round_aux_Rounds; [lia|simpl; reflexivity|].
      cbn [Zdigits2]. pose proof (digits_mul m1 m2).
      rewrite fexp_eq in *. lia.
Qed.


Theorem SFadd_Rounds f1 f2 :
  valid_binary f1 = true -> valid_binary f2 = true ->
  nonneg_finite f1 = true -> nonneg_finite f2 = true ->
  Rounds (SFval f1 + SFval f2) (SFadd prec emax f1 f2).
Proof.
  destruct f1 as [[|]|[|]| |[|] m1 e1] eqn:E1; try discriminate;
  destruct f2 as [[|]|[|]| |[|] m2 e2] eqn:E2; try discriminate;
    intros V1 V2 _ _; cbn [SFadd cond_Zopp].
  - apply (Rounds_ext 0); [simpl; ring|]. apply Rounds_zero.
  - apply (Rounds_ext (SFval (S754_finite false m2 e2))); [simpl; ring|].
    apply Rounds_float; [assumption|reflexivity].
  - apply (Rounds_ext (SFval (S754_finite false m1 e1))); [simpl; ring|].
    apply Rounds_float; [assumption|reflexivity].
  - cbn [SFval].
    pose proof (shl_align_spec m1 e1 (Z.min e1 e2)) as H1.
    pose proof (shl_align_spec m2 e2 (Z.min e1 e2)) as H2.
    destruct (shl_align m1 e1 (Z.min e1 e2)) as [n1 z1].
    destruct (shl_align m2 e2 (Z.min e1 e2)) as [n2 z2].
    destruct H1 as (Hz1 & Hn1 & _). destruct H2 as (Hz2 & Hn2 & _).
    cbn [fst].
    replace (Z.min e1 (Z.min e1 e2)) with (Z.min e1 e2) in * by lia.
    replace (Z.min e2 (Z.min e1 e2)) with (Z.min e1 e2) in * by lia.
    subst z1 z2.
    apply (Rounds_ext (inject_Z (Zpos n1 + Zpos n2) * pow2 (Z.min e1 e2))).
    + rewrite inject_Z_plus, Hn1, Hn2.
      pose proof (shifted_value (Zpos m1) e1 _ (Z.le_min_l e1 e2)).
      pose proof (shifted_value (Zpos m2) e2 _ (Z.le_min_r e1 e2)). nra.
    + apply binary_normalize_Rounds. lia.
Qed.

Lemma inject_Z_pos p : (0 < inject_Z (Zpos p))%Q.
Proof. change 0%Q with (inject_Z 0). rewrite <- Zlt_Qlt. lia. Qed.

Lemma new_location_inbetween m2 r q :
  0 <= r < Zpos m2 ->
  inbetween q (new_location (Zpos m2) r) (inject_Z q + inject_Z r / inject_Z (Zpos m2)).
Proof.
  intros Hr.
  pose proof (inject_Z_pos m2) as Hm2.
  assert (Et : (inject_Z r / inject_Z (Zpos m2) * inject_Z (Zpos m2) == inject_Z r)%Q).
  { field. lra. }
  assert (Eh : 2 * r = Zpos m2 -> (inject_Z r / inject_Z (Zpos m2) == 1 # 2)%Q).
  { intros E.
    assert (0 < inject_Z r)%Q by (change 0%Q with (inject_Z 0); rewrite <- Zlt_Qlt; lia).
    rewrite <- E, inject_Z_mult. change (inject_Z 2) with 2%Q. field. lra. }
  set (t := (inject_Z r / inject_Z (Zpos m2))%Q) in *. clearbody t.
  assert (H2r : (inject_Z (2 * r) == 2 * inject_Z r)%Q) by (rewrite inject_Z_mult; reflexivity).
  assert (Hr0 : (0 <= inject_Z r)%Q).
  { change 0%Q with (inject_Z 0). rewrite <- Zle_Qle. lia. }
  assert (Hodd : Z.even (Zpos m2) = false -> 2 * r <> Zpos m2).
  { intros Ev E. rewrite <- E, Z.even_mul in Ev. discriminate. }
  assert (Ez : r = 0 -> (t == 0)%Q).
  { intros ->. change (inject_Z 0) with 0%Q in Et. nra. }
  assert (Hlt : (inject_Z r < inject_Z (Zpos m2))%Q) by (rewrite <- Zlt_Qlt; lia).
  unfold new_location.
  destruct (Z.even (Zpos m2)) eqn:Ev;
    [unfold new_location_even|unfold new_location_odd; specialize (Hodd eq_refl)];
    (destruct (r =? 0) eqn:Er;
     [apply Z.eqb_eq in Er; specialize (Ez Er); cbv beta iota delta [inbetween]; lra|]);
    apply Z.eqb_neq in Er;
    assert (Hrp : (0 < inject_Z r)%Q)
      by (change 0%Q with (inject_Z 0); rewrite <- Zlt_Qlt; lia);
    assert (Htp : (0 < t)%Q) by nra.
  - destruct (Z.compare_spec (2 * r) (Zpos m2)) as [E|L|G];
      cbv beta iota delta [inbetween].
    + specialize (Eh E). lra.
    + rewrite Zlt_Qlt, H2r in L. split; nra.
    + rewrite Zlt_Qlt, H2r in G. split; nra.
  - destruct (Z.compare_spec (2 * r + 1) (Zpos m2)) as [E|L|G];
      cbv beta iota delta [inbetween].
    + assert (L : 2 * r < Zpos m2) by lia.
      rewrite Zlt_Qlt, H2r in L. split; nra.
    + assert (L' : 2 * r < Zpos m2) by lia.
      rewrite Zlt_Qlt, H2r in L'. split; nra.
    + assert (G' : Zpos m2 < 2 * r) by lia.
      rewrite Zlt_Qlt, H2r in G'. split; nra.
Qed.


Lemma quotient_digits m1 m2 s q r e' :
  0 <= s ->
  Zpos m1 * 2 ^ s = Zpos m2 * q + r -> 0 <= r < Zpos m2 ->
  e' + 53 <= Zpos (digits2_pos m1) + s - Zpos (digits2_pos m2) + e' ->
  0 < q /\ Zpos (digits2_pos m1) + s - Zpos (digits2_pos m2) <= Zdigits2 q.
Proof.
  intros Hs Hdiv Hr Hk.
  set (d1 := Zpos (digits2_pos m1)) in *. set (d2 := Zpos (digits2_pos m2)) in *.
  destruct (digits_bounds m1) as [H1 _]. destruct (digits_bounds m2) as [_ H2].
  fold d1 in H1. fold d2 in H2.
  set (k := d1 - 1 + s - d2).
  assert (Hk0 : 0 <= k) by (unfold k; lia).
  assert (Hp : 2 ^ k * 2 ^ d2 <= Zpos m1 * 2 ^ s).
  { rewrite <- Z.pow_add_r by (unfold d2; lia).
    replace (k + d2) with ((d1 - 1) + s) by (unfold k; lia).
    rewrite Z.pow_add_r by (unfold d1; lia).
    apply Z.mul_le_mono_nonneg_r; [apply Z.pow_nonneg; lia|exact H1]. }
  assert (Hk2 : 0 < 2 ^ k) by (apply Z.pow_pos_nonneg; lia).
  assert (Hq : 2 ^ k <= q) by nia.
  split; [lia|].
  destruct q as [|qp|qp]; [lia| |lia].
  cbn [Zdigits2].
  pose proof (digits_ge qp (k + 1)) as Hd.
  replace (k + 1 - 1) with k in Hd by lia. specialize (Hd Hq). unfold k in Hd. lia.
Qed.

Lemma quotient_value (M1 M2 Qq R Ps P' P2 P1 : Q) :
  (0 < M2 -> 0 < P2 -> M1 * Ps == M2 * Qq + R -> P1 == Ps * P' * P2 ->
   (Qq + R / M2) * P' == M1 * P1 / (M2 * P2))%Q.
Proof.
  intros H1 H2 H3 H4. rewrite H4.
  transitivity ((M2 * Qq + R) * P' / M2)%Q; [field; lra|].
  rewrite <- H3. field. split; lra.
Qed.

Theorem SFdiv_Rounds f1 m2 e2 :
  valid_binary f1 = true -> nonneg_finite f1 = true ->
  Rounds (SFval f1 / (inject_Z (Zpos m2) * pow2 e2))
         (SFdiv prec emax f1 (S754_finite false m2 e2)).
Proof.
  pose proof (inject_Z_pos m2) as HM2. pose proof (pow2_pos e2) as HP2.
  destruct f1 as [[|]|[|]| |[|] m1 e1]; try discriminate; intros V1 _.
  { cbn [SFdiv SFval xorb]. apply (Rounds_ext 0); [|apply Rounds_zero].
    unfold Qdiv. ring. }
  cbn [SFdiv SFval xorb]. unfold SFdiv_core_binary. cbn [Zdigits2].
  set (d1 := Zpos (digits2_pos m1)). set (d2 := Zpos (digits2_pos m2)).
  set (z := d1 + e1 - (d2 + e2)).
  set (e' := Z.min (fexp prec emax z) (e1 - e2)).
  set (s := e1 - e2 - e').
  assert (Hs : 0 <= s) by (unfold s, e'; lia).
  assert (Hm' : match s with
                | 0 => Zpos m1
                | Zpos _ => Z.shiftl (Zpos m1) s
                | Zneg _ => 0
                end = Zpos m1 * 2 ^ s).
  { destruct s as [|p|p] eqn:Es; [rewrite Z.pow_0_r; lia| |lia].
    apply Z.shiftl_mul_pow2. lia. }
  rewrite Hm'. clear Hm'.
  pose proof (Z_div_mod (Zpos m1 * 2 ^ s) (Zpos m2) ltac:(lia)) as Hdiv.
  destruct (Z.div_eucl (Zpos m1 * 2 ^ s) (Zpos m2)) as [q r].
  destruct Hdiv as [Hdiv Hr].
  assert (Hq0 : 0 <= q).
  { assert (0 <= Zpos m1 * 2 ^ s) by (apply Z.mul_nonneg_nonneg; [lia|apply Z.pow_nonneg; lia]).
    nia. }
  apply (Rounds_ext ((inject_Z q + inject_Z r / inject_Z (Zpos m2)) * pow2 e')).
  - assert (Ez : (inject_Z (Zpos m1) * pow2 s == inject_Z (Zpos m2) * inject_Z q + inject_Z r)%Q).
    { rewrite pow2_Z by exact Hs. rewrite <- !inject_Z_mult, <- inject_Z_plus, Hdiv.
      reflexivity. }
    assert (Ep : (pow2 e1 == pow2 s * pow2 e' * pow2 e2)%Q).
    { rewrite <- !pow2_add. replace (s + e' + e2) with e1 by (unfold s; lia). reflexivity. }
    apply (quotient_value _ _ _ _ (pow2 s)); assumption.
  - apply binary_round_aux_Rounds; [exact Hq0|apply new_location_inbetween; exact Hr|].
    rewrite fexp_eq. unfold e' at 1. rewrite fexp_eq.
    destruct (Z_le_gt_dec (z - 53) (-1074)) as [Hz|Hz]; [lia|].
    assert (He' : e' <= z - 53) by (unfold e'; rewrite fexp_eq; lia).
    destruct (quotient_digits m1 m2 s q r e' Hs Hdiv Hr) as [_ Hd].
    { fold d1 d2. unfold s. unfold z in He'. lia. }
    fold d1 d2 in Hd. unfold s in Hd. unfold z. unfold z in He'.
    fold e'. lia.
Qed.

(** ** Binary64 numbers between bounds

    An operation on numbers within bounds gives a number within the results
    of the operation on the bounds. *)

Lemma SFval_nonneg f : (0 <= SFval f)%Q.
Proof.
  destruct f as [| | |[|] m e]; cbn [SFval]; try lra.
  pose proof (inject_Z_pos m). pose proof (pow2_pos e). nra.
Qed.

Lemma rounds_own_value x : finite_nonneg x -> Rounds (value x) (Prim2SF x).
Proof. intros H. apply Rounds_float; [apply Prim2SF_valid|exact H]. Qed.

Lemma Rounds_nonneg v f :
  Rounds v f ->
  nonneg_finite f = true \/ f = S754_infinity false.
Proof.
  intros [_ (M & q & _ & _ & ->)]. unfold fin.
  destruct M; [left; reflexivity| |left; reflexivity].
  destruct (_ <? _); destruct (_ <=? _); auto.
Qed.

Lemma Rounds_below_finite v f g :
  Rounds v f -> nonneg_finite g = true -> SFleb f g = true -> nonneg_finite f = true.
Proof.
  intros H Hg Hle. destruct (Rounds_nonneg v f H) as [H0|H0]; [assumption|].
  subst f. destruct g as [[|]|[|]| |[|] m e]; discriminate.
Qed.

Lemma SFleb_antisym f g :
  nonneg_finite f = true -> nonneg_finite g = true ->
  SFleb f g = true -> SFleb g f = true -> f = g.
Proof.
  unfold SFleb, SFcompare.
  destruct f as [[|]|[|]| |[|] m e]; try discriminate;
  destruct g as [[|]|[|]| |[|] m' e']; try discriminate;
    intros _ _ Hle Hge; try reflexivity; try discriminate.
  destruct (Z.compare_spec e e') as [->|L|G].
  - rewrite Z.compare_refl in Hge.
    change (Pos.compare_cont Eq m m') with (m ?= m')%positive in Hle.
    change (Pos.compare_cont Eq m' m) with (m' ?= m)%positive in Hge.
    rewrite (Pos.compare_antisym m m') in Hge.
    destruct (m ?= m')%positive eqn:C; try discriminate.
    apply Pos.compare_eq in C. subst. reflexivity.
  - apply Z.compare_gt_iff in L. rewrite L in Hge. discriminate.
  - discriminate.
Qed.

Lemma SFleb_value f g :
  valid_binary f = true -> valid_binary g = true ->
  nonneg_finite f = true -> nonneg_finite g = true ->
  SFleb f g = true -> (SFval f <= SFval g)%Q.
Proof.
  intros Vf Vg Nf Ng Hle.
  destruct (Qlt_le_dec (SFval g) (SFval f)) as [Hlt|]; [exfalso|assumption].
  assert (Hge : SFleb g f = true).
  { apply (Rounds_mono (SFval g) (SFval f)); try apply Rounds_float; auto. lra. }
  rewrite (SFleb_antisym f g Nf Ng Hle Hge) in Hlt. lra.
Qed.

Lemma leb_value x y :
  finite_nonneg x -> finite_nonneg y -> PrimFloat.leb x y = true ->
  (value x <= value y)%Q.
Proof.
  intros Hx Hy H. rewrite leb_spec in H.
  apply SFleb_value; auto using Prim2SF_valid.
Qed.

Lemma within_value lo hi x :
  within lo hi x -> (0 <= value lo /\ value lo <= value x /\ value x <= value hi)%Q.
Proof.
  intros (Hlo & Hhi & Hx & H1 & H2).
  split; [apply SFval_nonneg|]. split; apply leb_value; assumption.
Qed.

(** The pattern of every bound below: an operation that rounds the exact
    results [vlo <= v <= vhi] to [lo], [x] and [hi], with [hi] finite. *)
Lemma within_rounds vlo v vhi lo hi x :
  Rounds vlo (Prim2SF lo) -> Rounds v (Prim2SF x) -> Rounds vhi (Prim2SF hi) ->
  (vlo <= v)%Q -> (v <= vhi)%Q ->
  finite_nonneg hi -> within lo hi x.
Proof.
  intros Rlo Rx Rhi H1 H2 Hhi.
  assert (L2 : SFleb (Prim2SF x) (Prim2SF hi) = true) by (apply (Rounds_mono v vhi); assumption).
  assert (L1 : SFleb (Prim2SF lo) (Prim2SF x) = true) by (apply (Rounds_mono vlo v); assumption).
  assert (Hx : finite_nonneg x) by (apply (Rounds_below_finite v _ (Prim2SF hi)); assumption).
  assert (Hlo : finite_nonneg lo) by (apply (Rounds_below_finite vlo _ (Prim2SF x)); assumption).
  unfold within, float_le. rewrite !leb_spec. auto.
Qed.

Lemma mul_rounds x y :
  finite_nonneg x -> finite_nonneg y ->
  Rounds (value x * value y) (Prim2SF (x * y)%float).
Proof.
  intros Hx Hy. rewrite mul_spec. apply SFmul_Rounds; auto using Prim2SF_valid.
Qed.

Lemma add_rounds x y :
  finite_nonneg x -> finite_nonneg y ->
  Rounds (value x + value y) (Prim2SF (x + y)%float).
Proof.
  intros Hx Hy. rewrite add_spec. apply SFadd_Rounds; auto using Prim2SF_valid.
Qed.

Lemma finite_positive_value c : finite_positive c -> (0 < value c)%Q.
Proof.
  unfold finite_positive, value.
  destruct (Prim2SF c) as [| | |[|] m e]; try contradiction. intros _.
  cbn [SFval]. pose proof (inject_Z_pos m). pose proof (pow2_pos e). nra.
Qed.

Lemma div_rounds x c :
  finite_nonneg x -> finite_positive c ->
  Rounds (value x / value c) (Prim2SF (x / c)%float).
Proof.
  intros Hx Hc. rewrite div_spec. unfold finite_positive in Hc. unfold value at 2.
  destruct (Prim2SF c) as [| | |[|] m e]; try contradiction.
  cbn [SFval]. apply SFdiv_Rounds; auto using Prim2SF_valid.
Qed.

Theorem within_mul lo1 hi1 x1 lo2 hi2 x2 :
  within lo1 hi1 x1 -> within lo2 hi2 x2 ->
  finite_nonneg (hi1 * hi2)%float ->
  within (lo1 * lo2)%float (hi1 * hi2)%float (x1 * x2)%float.
Proof.
  intros W1 W2 Hhi.
  pose proof (within_value _ _ _ W1) as (A1 & B1 & C1).
  pose proof (within_value _ _ _ W2) as (A2 & B2 & C2).
  destruct W1 as (L1 & H1 & X1 & _). destruct W2 as (L2 & H2 & X2 & _).
  apply (within_rounds (value lo1 * value lo2) (value x1 * value x2)
           (value hi1 * value hi2)); auto using mul_rounds; nra.
Qed.

Theorem within_add lo1 hi1 x1 lo2 hi2 x2 :
  within lo1 hi1 x1 -> within lo2 hi2 x2 ->
  finite_nonneg (hi1 + hi2)%float ->
  within (lo1 + lo2)%float (hi1 + hi2)%float (x1 + x2)%float.
Proof.
  intros W1 W2 Hhi.
  pose proof (within_value _ _ _ W1) as (A1 & B1 & C1).
  pose proof (within_value _ _ _ W2) as (A2 & B2 & C2).
  destruct W1 as (L1 & H1 & X1 & _). destruct W2 as (L2 & H2 & X2 & _).
  apply (within_rounds (value lo1 + value lo2) (value x1 + value x2)
           (value hi1 + value hi2)); auto using add_rounds; lra.
Qed.

Theorem within_div lo hi x c :
  within lo hi x -> finite_positive c ->
  finite_nonneg (hi / c)%float ->
  within (lo / c)%float (hi / c)%float (x / c)%float.
Proof.
  intros W Hc Hhi.
  pose proof (within_value _ _ _ W) as (A & B & C).
  pose proof (finite_positive_value c Hc) as Hv.
  destruct W as (L1 & H1 & X1 & _).
  assert (Hinv : (0 < / value c)%Q) by (apply Qinv_lt_0_compat; exact Hv).
  apply (within_rounds (value lo / value c) (value x / value c)
           (value hi / value c)); auto using div_rounds; unfold Qdiv; nra.
Qed.

Lemma within_refl c : finite_nonneg c -> within c c c.
Proof.
  intros Hc. pose proof (rounds_own_value c Hc).
  apply (within_rounds (value c) (value c) (value c)); auto; lra.
Qed.

Lemma leb_of_value x y :
  finite_nonneg x -> finite_nonneg y -> (value x <= value y)%Q ->
  PrimFloat.leb x y = true.
Proof.
  intros Hx Hy H. rewrite leb_spec.
  apply (Rounds_mono (value x) (value y)); auto using rounds_own_value.
Qed.

Lemma within_weaken lo hi x lo' hi' :
  within lo hi x ->
  finite_nonneg lo' -> float_le lo' lo -> finite_nonneg hi' -> float_le hi hi' ->
  within lo' hi' x.
Proof.
  intros W Fl Ll Fh Lh.
  pose proof (within_value _ _ _ W) as (A & B & C).
  destruct W as (L & H & X & _).
  pose proof (leb_value _ _ Fl L Ll). pose proof (leb_value _ _ H Fh Lh).
  apply (within_rounds (value lo') (value x) (value hi'));
    auto using rounds_own_value; lra.
Qed.

Lemma within_finite lo hi x : within lo hi x -> finite_nonneg x.
Proof. intros (_ & _ & H & _). exact H. Qed.

(** The conversion of an integer of the 63-bit range. *)
Lemma of_int_spec z :
  0 <= z < 2 ^ 63 -> Prim2SF (Binary64.of_int z) = binary_normalize prec emax z 0 false.
Proof.
  intros Hz. unfold Binary64.of_int. apply Prim2SF_SF2Prim.
  rewrite (Uint63.is_int z) at 1 by exact Hz.
  rewrite <- of_uint63_spec. apply Prim2SF_valid.
Qed.

Lemma of_int_rounds z :
  0 <= z < 2 ^ 63 -> Rounds (inject_Z z) (Prim2SF (Binary64.of_int z)).
Proof.
  intros Hz. rewrite of_int_spec by exact Hz.
  apply (Rounds_ext (inject_Z z * pow2 0)); [change (pow2 0) with 1%Q; ring|].
  apply binary_normalize_Rounds. lia.
Qed.

Theorem within_of_int a b z :
  0 <= a -> a <= z -> z <= b -> b < 2 ^ 63 ->
  finite_nonneg (Binary64.of_int b) ->
  within (Binary64.of_int a) (Binary64.of_int b) (Binary64.of_int z).
Proof.
  intros Ha Haz Hzb Hb Hhi.
  apply (within_rounds (inject_Z a) (inject_Z z) (inject_Z b));
    try (apply of_int_rounds; lia); try exact Hhi;
    rewrite <- Zle_Qle; assumption.
Qed.

(** *** Comparisons and accumulation *)

Lemma SFcompare_refl f : f <> S754_nan -> SFcompare f f = Some Eq.
Proof.
  destruct f as [s|s| |s m e]; intros H; try congruence; cbn [SFcompare];
    try (destruct s; reflexivity).
  change (Pos.compare_cont Eq m m) with (m ?= m)%positive.
  destruct s; rewrite Z.compare_refl, Pos.compare_refl; reflexivity.
Qed.

Lemma SFltb_SFleb f g : SFltb f g = true -> SFleb f g = true.
Proof. unfold SFltb, SFleb. destruct (SFcompare f g) as [[| |]|]; congruence. Qed.

Lemma ordered_not_nan x : ordered x <-> Prim2SF x <> S754_nan.
Proof.
  unfold ordered. rewrite leb_spec. split.
  - intros H E. rewrite E in H. discriminate.
  - intros H. unfold SFleb. rewrite SFcompare_refl by exact H. reflexivity.
Qed.

Lemma leb_ordered x y : PrimFloat.leb x y = true -> ordered x /\ ordered y.
Proof.
  rewrite leb_spec. intros H. rewrite !ordered_not_nan.
  split; intros E; rewrite E in H; [|destruct (Prim2SF x)]; discriminate.
Qed.

Lemma ltb_leb x y : PrimFloat.ltb x y = true -> PrimFloat.leb x y = true.
Proof. rewrite ltb_spec, leb_spec. apply SFltb_SFleb. Qed.

(** Between finite numbers that are not negative, [a <= b] excludes [b < a]. *)
Lemma leb_not_ltb a b :
  finite_nonneg a -> finite_nonneg b ->
  PrimFloat.leb a b = true -> PrimFloat.ltb b a = false.
Proof.
  intros Ha Hb Hle. destruct (PrimFloat.ltb b a) eqn:Hlt; [exfalso|reflexivity].
  pose proof (ltb_leb _ _ Hlt) as Hge.
  rewrite leb_spec in Hle, Hge. rewrite ltb_spec in Hlt.
  pose proof (SFleb_antisym _ _ Ha Hb Hle Hge) as E.
  rewrite E in Hlt. unfold SFltb in Hlt.
  rewrite SFcompare_refl in Hlt; [discriminate|].
  intros En. unfold finite_nonneg in Hb. rewrite En in Hb. discriminate.
Qed.

(** [max(a, b)] is no smaller than [a], whatever [b] is. *)
Lemma py_max_increases (a b : float) :
  ordered a -> PrimFloat.leb a (py_max a b) = true /\ ordered (py_max a b).
Proof.
  intros Ha. unfold py_max. change (@fltb float _ a b) with (PrimFloat.ltb a b).
  destruct (PrimFloat.ltb a b) eqn:E.
  - apply ltb_leb in E. split; [exact E|]. apply (leb_ordered _ _ E).
  - split; exact Ha.
Qed.

Lemma add_increases x y :
  nonneg x -> finite_nonneg y ->
  PrimFloat.leb x (x + y)%float = true /\ nonneg (x + y)%float.
Proof.
  intros [Hx|Hx] Hy.
  - pose proof (add_rounds x y Hx Hy) as R.
    split.
    + rewrite leb_spec.
      apply (Rounds_mono (value x) (value x + value y));
        [apply rounds_own_value; exact Hx|exact R|].
      pose proof (SFval_nonneg (Prim2SF y)). unfold value. lra.
    + exact (Rounds_nonneg _ _ R).
  - assert (E : Prim2SF (x + y)%float = S754_infinity false).
    { rewrite add_spec, Hx. unfold finite_nonneg in Hy.
      destruct (Prim2SF y) as [[|]|[|]| |[|] m e]; try discriminate; reflexivity. }
    split; [|right; exact E].
    rewrite leb_spec, E, Hx. reflexivity.
Qed.

Lemma SFltb_total f g :
  nonneg_finite f = true -> nonneg_finite g = true ->
  SFltb f g = false -> SFleb g f = true.
Proof.
  unfold SFltb, SFleb, SFcompare.
  destruct f as [[|]|[|]| |[|] m e]; try discriminate;
  destruct g as [[|]|[|]| |[|] m' e']; try discriminate;
    intros _ _ H; try reflexivity; try discriminate.
  rewrite (Z.compare_antisym e e').
  change (Pos.compare_cont Eq m m') with (m ?= m')%positive in H.
  change (Pos.compare_cont Eq m' m) with (m' ?= m)%positive.
  rewrite (Pos.compare_antisym m m').
  destruct (e ?= e'); cbn [CompOpp] in *; try reflexivity; try discriminate.
  destruct (m ?= m')%positive; cbn [CompOpp] in *; try reflexivity; discriminate.
Qed.

Lemma ltb_false_leb a b :
  finite_nonneg a -> finite_nonneg b ->
  PrimFloat.ltb a b = false -> PrimFloat.leb b a = true.
Proof.
  intros Ha Hb H. rewrite ltb_spec in H. rewrite leb_spec.
  apply SFltb_total; assumption.
Qed.

(** [max(a, x)] stays between the bounds of [x] when [a] is below the upper
    one. *)
Lemma py_max_within (a x lo hi : float) :
  finite_nonneg a -> float_le a hi -> within lo hi x -> within lo hi (py_max a x).
Proof.
  intros Ha Hle W. unfold py_max.
  change (@fltb float _ a x) with (PrimFloat.ltb a x).
  destruct (PrimFloat.ltb a x) eqn:E; [exact W|].
  pose proof (within_value _ _ _ W) as (A & B & C).
  destruct W as (Fl & Fh & Fx & L1 & L2).
  pose proof (ltb_false_leb _ _ Ha Fx E) as Hxa.
  pose proof (leb_value _ _ Fx Ha Hxa).
  unfold within, float_le. repeat split; try assumption.
  apply leb_of_value; try assumption. lra.
Qed.

(** The executable value agrees with the one of the proofs. *)
Lemma to_Q_value x : finite_nonneg x -> (Binary64.to_Q x == value x)%Q.
Proof.
  unfold finite_nonneg, Binary64.to_Q, value.
  destruct (Prim2SF x) as [[|]|[|]| |[|] m e]; try discriminate; intros _;
    cbn [SFval]; [reflexivity|].
  destruct (Z.leb_spec 0 e) as [He|He].
  - rewrite inject_Z_mult, pow2_Z by exact He. reflexivity.
  - assert (E : (pow2 e == / inject_Z (2 ^ (- e)))%Q).
    { rewrite <- pow2_Z by lia. unfold pow2.
      rewrite <- Qpower_opp. replace (- - e) with e by lia. reflexivity. }
    rewrite E. rewrite Qmake_Qdiv.
    rewrite Pos2Z.inj_pow, Z2Pos.id by lia. reflexivity.
Qed.

(** From bounds that are binary64 numbers to bounds that are decimals. *)
Lemma within_lies_in lo hi x (qlo qhi : Q) :
  within lo hi x ->
  finite_nonneg (lit qlo) -> float_le (lit qlo) lo ->
  finite_nonneg (lit qhi) -> float_le hi (lit qhi) ->
  (qlo <= value lo)%Q -> (value hi <= qhi)%Q ->
  lies_in qlo qhi x.
Proof.
  intros W Fl Ll Fh Lh Vl Vh.
  pose proof (within_value _ _ _ W) as (_ & B & C).
  pose proof (within_weaken _ _ _ _ _ W Fl Ll Fh Lh) as (_ & _ & Hx & H1 & H2).
  unfold lies_in. rewrite (to_Q_value x Hx). repeat split; try assumption; lra.
Qed.

(** ** The generator in binary64 *)

Section Readings.

Context {F : Type} `{Float F}.

(** The readings of a step as expressions of its nine draws. *)
Lemma measure_readings id af i (st : meter_state F) g m st' g1 :
  measure id af i st g = (m, st', g1) ->
  let draw := fun n : nat => (of_int (g n mod 2 ^ 53) / of_int (2 ^ 53))%pf in
  let load :=
    (base_load_factor (hour_of (current_time st))
     * (lit 0.95 + (lit 1.05 - lit 0.95) * draw 0%nat))%pf in
  let current_load_factor := (py_min (py_max load (lit 0.2)) (lit 1.0) * af)%pf in
  let export_factor :=
    if (draw 1%nat >? lit 0.7)%pf then lit 0.3 else lit 0.0 in
  let interval_hours := (of_int i / lit 60.0)%pf in
  active_energy_import_kwh m
  = (cumulative_energy_import st + current_load_factor * lit 2.5 * interval_hours)%pf /\
  active_energy_export_kwh m
  = (cumulative_energy_export st + export_factor * lit 1.5 * interval_hours)%pf /\
  voltage_phase1_v m
  = (BASE_VOLTAGE * (lit 0.98 + (lit 1.02 - lit 0.98) * draw 2%nat))%pf /\
  voltage_phase2_v m
  = (BASE_VOLTAGE * (lit 0.98 + (lit 1.02 - lit 0.98) * draw 3%nat))%pf /\
  voltage_phase3_v m
  = (BASE_VOLTAGE * (lit 0.98 + (lit 1.02 - lit 0.98) * draw 4%nat))%pf /\
  current_phase1_a m
  = (MAX_CURRENT * current_load_factor
     * (lit 0.95 + (lit 1.05 - lit 0.95) * draw 5%nat))%pf /\
  current_phase2_a m
  = (MAX_CURRENT * current_load_factor
     * (lit 0.95 + (lit 1.05 - lit 0.95) * draw 6%nat))%pf /\
  current_phase3_a m
  = (MAX_CURRENT * current_load_factor
     * (lit 0.95 + (lit 1.05 - lit 0.95) * draw 7%nat))%pf /\
  power_factor m = (lit 0.92 + (lit 0.99 - lit 0.92) * draw 8%nat)%pf /\
  maximum_demand_kw m
  = py_max (max_demand st)
      (current_load_factor * MAX_CURRENT * BASE_VOLTAGE / of_int 1000
       * MAX_DEMAND_FACTOR)%pf.
Proof.
  cbv [measure bind uniform random next_draw ret].
  intros [= <- <- <-]. cbv beta zeta. repeat split.
Qed.

End Readings.

Lemma add_minutes_range t k t' :
  add_minutes t k = Some t' -> t' = t + k /\ 0 <= t' <= MAX_MINUTES.
Proof.
  unfold add_minutes. cbv zeta.
  destruct (Z.leb_spec 0 (t + k)); destruct (Z.leb_spec (t + k) MAX_MINUTES);
    cbn [andb]; intros [= <-]. lia.
Qed.

(** [random.random()] is monotone in the raw draw. *)
Lemma random_between k :
  within bottom_draw top_draw
    (Binary64.of_int (k mod 2 ^ 53) / Binary64.of_int (2 ^ 53))%float.
Proof.
  assert (Hk : 0 <= k mod 2 ^ 53 < 2 ^ 53) by (apply Z.mod_pos_bound; lia).
  unfold bottom_draw, top_draw.
  apply within_div; [|closed_float|closed_float].
  apply within_of_int; try lia; closed_float.
Qed.

(** [random.uniform(a, b)] lies between its values at the two extreme
    draws. *)
Lemma uniform_between (a b : float) k :
  finite_nonneg a -> finite_nonneg (b - a)%float ->
  finite_nonneg ((b - a) * top_draw)%float ->
  finite_nonneg (highest a b) ->
  within (lowest a b) (highest a b)
    (a + (b - a) * (Binary64.of_int (k mod 2 ^ 53) / Binary64.of_int (2 ^ 53)))%float.
Proof.
  intros Ha Hc H1 H2. unfold lowest, highest in *.
  apply within_add; [apply within_refl; exact Ha| |exact H2].
  apply within_mul; [apply within_refl; exact Hc|apply random_between|exact H1].
Qed.

Lemma binary64_base_load_factor hour :
  within (lit 0.3) (lit 0.9) (base_load_factor (F := float) hour).
Proof.
  unfold base_load_factor.
  repeat match goal with
         | |- context [if ?b then _ else _] => destruct b
         end; closed_float.
Qed.

(** Lines 78-79: the jittered load is within the clamp's bounds, so the
    clamp returns it as it is. *)
Lemma binary64_load_factor hour k :
  let load :=
    (base_load_factor (F := float) hour
     * (lit 0.95 + (lit 1.05 - lit 0.95)
                   * (of_int (k mod 2 ^ 53) / of_int (2 ^ 53))))%pf in
  py_min (py_max load (lit 0.2)) (lit 1.0) = load /\
  within load_low load_high load.
Proof.
  cbv zeta.
  match goal with |- _ /\ within ?lo ?hi ?x => assert (W : within lo hi x) end.
  { binary64_operations. unfold load_low, load_high.
    apply within_mul; [apply binary64_base_load_factor| |closed_float].
    apply uniform_between; closed_float. }
  split; [|exact W].
  match type of W with within _ _ ?x => set (load := x) in * end.
  assert (W2 : within (lit 0.2) (lit 1.0) load).
  { apply (within_weaken load_low load_high); [exact W| | | |]; closed_float. }
  destruct W2 as (F1 & F2 & F3 & L1 & L2).
  unfold py_min, py_max.
  change (@fltb float _ load (lit 0.2)) with (PrimFloat.ltb load (lit 0.2)).
  rewrite (leb_not_ltb _ _ F1 F3 L1).
  change (@fltb float _ (lit 1.0) load) with (PrimFloat.ltb (lit 1.0) load).
  rewrite (leb_not_ltb _ _ F3 F2 L2). reflexivity.
Qed.

(** Line 59 *)
Lemma binary64_abnormality_factor g (af : float) g1 :
  draw_abnormality_factor g = (af, g1) ->
  within abnormality_low abnormality_high af.
Proof.
  cbv [draw_abnormality_factor bind uniform random next_draw ret].
  match goal with |- context [if ?b then _ else _] => destruct b end;
    intros [= <- <-].
  - closed_float.
  - binary64_operations. apply uniform_between; closed_float.
Qed.

(** Line 85, for an interval the calendar can hold. *)
Lemma binary64_interval_hours i :
  1 <= i <= MAX_MINUTES ->
  within (Binary64.of_int 1 / lit 60.0)%float
         (Binary64.of_int MAX_MINUTES / lit 60.0)%float
         (of_int i / lit 60.0)%pf.
Proof.
  intros Hi. binary64_operations.
  apply within_div; [|closed_float|closed_float].
  apply within_of_int; try lia; [vm_compute; reflexivity|closed_float].
Qed.

Ltac interval_of_uniform :=
  eapply within_lies_in;
  [ first [ apply uniform_between; closed_float
          | apply within_mul;
            [apply within_refl; closed_float
            |apply uniform_between; closed_float
            |closed_float] ]
  | closed_float | closed_float | closed_float | closed_float
  | closed_float | closed_float ].

(** Lines 101-111: the voltages and the power factor of a step. *)
Lemma binary64_measure_voltages id af i (st : meter_state float) g m st' g1 :
  measure id af i st g = (m, st', g1) ->
  lies_in 225.4 234.6 (voltage_phase1_v m) /\
  lies_in 225.4 234.6 (voltage_phase2_v m) /\
  lies_in 225.4 234.6 (voltage_phase3_v m) /\
  lies_in 0.92 0.99 (power_factor m).
Proof.
  intros Hm.
  destruct (measure_readings _ _ _ _ _ _ _ _ Hm)
    as (_ & _ & E1 & E2 & E3 & _ & _ & _ & E4 & _).
  cbv beta zeta in E1, E2, E3, E4. rewrite E1, E2, E3, E4.
  unfold BASE_VOLTAGE. binary64_operations.
  split; [|split; [|split]]; interval_of_uniform.
Qed.

(** Lines 82-98: each energy is the previous one plus an increment that is
    finite and not negative. *)
Lemma binary64_measure_energy id af i (st : meter_state float) g m st' g1 :
  measure id af i st g = (m, st', g1) ->
  within abnormality_low abnormality_high af ->
  1 <= i <= MAX_MINUTES ->
  (exists y, finite_nonneg y /\
     active_energy_import_kwh m = (cumulative_energy_import st + y)%float) /\
  (exists z, finite_nonneg z /\
     active_energy_export_kwh m = (cumulative_energy_export st + z)%float).
Proof.
  intros Hm Haf Hi.
  destruct (measure_readings _ _ _ _ _ _ _ _ Hm) as (E1 & E2 & _).
  cbv beta zeta in E1, E2. rewrite E1, E2. clear E1 E2 Hm.
  destruct (binary64_load_factor (hour_of (current_time st)) (g 0%nat)) as [Ec Wl].
  cbv zeta in Ec, Wl. rewrite !Ec. clear Ec.
  pose proof (binary64_interval_hours i Hi) as Wh.
  match type of Wl with within _ _ ?x => set (load := x) in * end.
  match type of Wh with within _ _ ?x => set (hours := x) in * end.
  split.
  - eexists. split; [|reflexivity].
    eapply within_finite. binary64_operations.
    apply within_mul;
      [apply within_mul;
         [apply within_mul; [exact Wl|exact Haf|closed_float]
         |apply within_refl; closed_float
         |closed_float]
      |exact Wh
      |closed_float].
  - eexists. split; [|reflexivity].
    match goal with |- context [if ?b then _ else _] => destruct b end;
      eapply within_finite; binary64_operations;
      (apply within_mul; [apply within_refl; closed_float|exact Wh|closed_float]).
Qed.

(** Lines 106-115: the currents of a step, and its maximum demand when the
    previous one is below the upper bound. *)
Lemma binary64_measure_currents id af i (st : meter_state float) g m st' g1 :
  measure id af i st g = (m, st', g1) ->
  within abnormality_low abnormality_high af ->
  finite_nonneg (max_demand st) -> float_le (max_demand st) demand_high ->
  within current_low current_high (current_phase1_a m) /\
  within current_low current_high (current_phase2_a m) /\
  within current_low current_high (current_phase3_a m) /\
  within demand_low demand_high (maximum_demand_kw m).
Proof.
  intros Hm Haf Fd Ld.
  destruct (measure_readings _ _ _ _ _ _ _ _ Hm)
    as (_ & _ & _ & _ & _ & E1 & E2 & E3 & _ & E4).
  cbv beta zeta in E1, E2, E3, E4. rewrite E1, E2, E3, E4. clear E1 E2 E3 E4 Hm.
  destruct (binary64_load_factor (hour_of (current_time st)) (g 0%nat)) as [Ec Wl].
  cbv zeta in Ec, Wl. rewrite !Ec. clear Ec.
  match type of Wl with within _ _ ?x => set (load := x) in * end.
  assert (Wc : within (load_low * abnormality_low)%float
                 (load_high * abnormality_high)%float (load * af)%float).
  { apply within_mul; [exact Wl|exact Haf|closed_float]. }
  unfold MAX_CURRENT, BASE_VOLTAGE, MAX_DEMAND_FACTOR. binary64_operations.
  assert (Wcur : forall k,
            within current_low current_high
              (lit 100.0 * (load * af)
               * (lit 0.95 + (lit 1.05 - lit 0.95)
                  * (Binary64.of_int (k mod 2 ^ 53) / Binary64.of_int (2 ^ 53))))%float).
  { intros k. unfold current_low, current_high.
    apply within_mul;
      [apply within_mul; [apply within_refl; closed_float|exact Wc|closed_float]
      |apply uniform_between; closed_float
      |closed_float]. }
  split; [apply Wcur|]. split; [apply Wcur|]. split; [apply Wcur|].
  apply py_max_within; [exact Fd|exact Ld|].
  unfold demand_low, demand_high.
  apply within_mul;
    [apply within_div;
       [apply within_mul;
          [apply within_mul; [exact Wc|apply within_refl; closed_float|closed_float]
          |apply within_refl; closed_float
          |closed_float]
       |closed_float
       |closed_float]
    |apply within_refl; closed_float
    |closed_float].
Qed.

(** *** Runs *)

Lemma binary64_run_voltages id ha af i end_ (st : meter_state float) ms es :
  meter_run id ha af i end_ st ms es ->
  Forall (fun m =>
    lies_in 225.4 234.6 (voltage_phase1_v m) /\
    lies_in 225.4 234.6 (voltage_phase2_v m) /\
    lies_in 225.4 234.6 (voltage_phase3_v m) /\
    lies_in 0.92 0.99 (power_factor m)) ms.
Proof.
  induction 1 as [st Hgt|st g m events st' g' t ms es Hle Hs Ht Hr IH];
    constructor; [|exact IH].
  apply step_parts in Hs. destruct Hs as (g1 & g2 & a & b & Hm & _).
  exact (binary64_measure_voltages _ _ _ _ _ _ _ _ Hm).
Qed.

(** The accumulated fields of a run, from a state whose accumulators are
    numbers (not NaN) that are not negative. *)
Lemma binary64_run_energy id ha af i end_ (st : meter_state float) ms es :
  meter_run id ha af i end_ st ms es ->
  within abnormality_low abnormality_high af ->
  0 <= current_time st ->
  nonneg (cumulative_energy_import st) ->
  nonneg (cumulative_energy_export st) ->
  ordered (max_demand st) ->
  (Sorted float_le (map active_energy_import_kwh ms) /\
   HdRel float_le (cumulative_energy_import st) (map active_energy_import_kwh ms)) /\
  (Sorted float_le (map active_energy_export_kwh ms) /\
   HdRel float_le (cumulative_energy_export st) (map active_energy_export_kwh ms)) /\
  (Sorted float_le (map maximum_demand_kw ms) /\
   HdRel float_le (max_demand st) (map maximum_demand_kw ms)).
Proof.
  intros Hrun Haf.
  induction Hrun as [st Hgt|st g m events st' g' t ms es Hle Hs Ht Hr IH];
    intros Ht0 Hi0 He0 Hd0.
  - cbn [map]. repeat split; constructor.
  - assert (Hi : 0 < i).
    { apply (run_interval_positive id ha af i end_ st (m :: ms) (events ++ es));
        [econstructor; eassumption|discriminate]. }
    apply step_parts in Hs. destruct Hs as (g1 & g2 & a & b & Hm & _).
    pose proof (measure_row _ _ _ _ _ _ _ _ Hm) as (_ & _ & Ect & E1 & E2 & E3 & _).
    apply add_minutes_range in Ht. destruct Ht as [Et Hrange].
    pose proof (measure_readings _ _ _ _ _ _ _ _ Hm)
      as (_ & _ & _ & _ & _ & _ & _ & _ & _ & Ex).
    cbv beta zeta in Ex.
    apply binary64_measure_energy in Hm; [|exact Haf|lia].
    destruct Hm as ((y & Hy & Ey) & (z & Hz & Ez)).
    destruct (add_increases _ y Hi0 Hy) as [L1 N1].
    destruct (add_increases _ z He0 Hz) as [L2 N2].
    match type of Ex with _ = py_max _ ?x =>
      destruct (py_max_increases (max_demand st) x Hd0) as [L3 N3]
    end.
    rewrite <- Ey in L1, N1. rewrite <- Ez in L2, N2. rewrite <- Ex in L3, N3.
    cbn [current_time cumulative_energy_import cumulative_energy_export max_demand] in IH.
    rewrite E1, E2, E3 in IH.
    destruct (IH ltac:(lia) N1 N2 N3) as ((S1 & H1) & (S2 & H2) & (S3 & H3)).
    cbn [map]. repeat split; constructor; assumption.
Qed.

Lemma binary64_run_currents id ha af i end_ (st : meter_state float) ms es :
  meter_run id ha af i end_ st ms es ->
  within abnormality_low abnormality_high af ->
  finite_nonneg (max_demand st) -> float_le (max_demand st) demand_high ->
  Forall (fun m =>
    within current_low current_high (current_phase1_a m) /\
    within current_low current_high (current_phase2_a m) /\
    within current_low current_high (current_phase3_a m) /\
    within demand_low demand_high (maximum_demand_kw m)) ms.
Proof.
  intros Hrun Haf.
  induction Hrun as [st Hgt|st g m events st' g' t ms es Hle Hs Ht Hr IH];
    intros Fd Ld; [constructor|].
  apply step_parts in Hs. destruct Hs as (g1 & g2 & a & b & Hm & _).
  pose proof (measure_row _ _ _ _ _ _ _ _ Hm) as (_ & _ & _ & _ & _ & E3 & _).
  pose proof (binary64_measure_currents _ _ _ _ _ _ _ _ Hm Haf Fd Ld) as Hc.
  constructor; [exact Hc|].
  apply IH; cbn [max_demand]; rewrite E3;
    destruct Hc as (_ & _ & _ & (_ & _ & Fm & _ & Lm)); assumption.
Qed.

(** ** The properties of the specification (C1 to C10) and the first
       further ones (X1 to X3) *)

Lemma strongly_sorted_lt_le l : StronglySorted Z.lt l -> Sorted Z.le l.
Proof.
  intros Hs. apply StronglySorted_Sorted.
  induction Hs as [|a l Hs IH Hf]; constructor; auto.
  eapply Forall_impl; [|exact Hf]. cbn. intros; lia.
Qed.

Lemma Forall2_In_r {A B} (R : A -> B -> Prop) l1 l2 b :
  Forall2 R l1 l2 -> In b l2 -> exists a, In a l1 /\ R a b.
Proof.
  induction 1 as [|a0 b0 l1 l2 HR HF IH]; intros Hin; [inversion Hin|].
  destruct Hin as [<-|Hin].
  - exists a0. split; [left; reflexivity|exact HR].
  - destruct (IH Hin) as (a & Ha & HRa). exists a. split; [right|]; assumption.
Qed.

Lemma make_meter_ids_cons n urandom :
  0 < n -> exists id ids, make_meter_ids n urandom = id :: ids.
Proof.
  intros Hn. unfold make_meter_ids.
  destruct (Z.to_nat n) as [|k] eqn:E; [lia|].
  cbn [seq map]. eauto.
Qed.

(** X1: for a positive interval, at least one meter and [start <= end], when
    the instant one interval after the last step is past 9999-12-31 23:59 the
    call raises [OverflowError] and returns no table. *)
Theorem time_advance_past_the_calendar_raises {F : Type} `{Float F} fuel n sd ed i urandom g start end_ :
  strptime sd = Some start -> strptime ed = Some end_ ->
  0 < i -> 0 < n -> start <= end_ ->
  MAX_MINUTES < start + steps_between start end_ i * i ->
  (Z.to_nat (steps_between start end_ i) <= fuel)%nat ->
  generate_smart_meter_data (F := F) fuel n sd ed i urandom g = Raises OverflowError.
Proof.
  intros Hs He Hi Hn Hle Hfit Hfuel.
  pose proof (strptime_range _ _ Hs) as [H0 _].
  destruct (make_meter_ids_cons n urandom Hn) as (id & ids & Hids).
  unfold generate_smart_meter_data. rewrite Hs, He, Hids. cbn [for_meters].
  destruct (draw_abnormality_factor g) as [af g1].
  rewrite (while_loop_overflows id (has_abnormality_of af) af i end_ Hi fuel
             (initial_state start) [] [] g1 H0 Hle Hfuel Hfit).
  reflexivity.
Qed.

(** C1, as stated, fails.  With one meter, start and end both at
    2024-01-01 00:00 and an interval of 10^10 minutes the claim counts one
    measurement, and so it does for a 15-minute interval from 23:45 to 23:59
    on 9999-12-31; in both calls the time advance that follows the first row
    leaves the calendar, and the call raises [OverflowError] instead of
    returning its row. *)
Lemma measurement_count_fails_past_year_9999 :
  strptime "01:01:2024 00:00" = Some 1063994400 /\
  steps_between 1063994400 1063994400 (10 ^ 10) = 1 /\
  generate_smart_meter_data (F := float) 1 1
    "01:01:2024 00:00" "01:01:2024 00:00" (10 ^ 10) sample_urandom sample_rng
  = Raises OverflowError /\
  strptime "31:12:9999 23:45" = Some 5258964945 /\
  strptime "31:12:9999 23:59" = Some 5258964959 /\
  steps_between 5258964945 5258964959 15 = 1 /\
  generate_smart_meter_data (F := float) 1 1
    "31:12:9999 23:45" "31:12:9999 23:59" 15 sample_urandom sample_rng
  = Raises OverflowError.
Proof. repeat split; vm_compute; reflexivity. Qed.

(** C1 (amended): for a positive interval, when the instant one interval
    after the last step, [start + steps * interval_minutes], is still in the
    calendar, the call returns, and every meter has
    [floor((end - start) / interval_minutes) + 1] measurements when
    [start <= end] and none when [start > end] ([steps_between]): the
    measurements come in one block of that length per meter, and with distinct
    identifiers that is the number of rows carrying a meter's identifier.  The
    fuel only has to cover the steps. *)
Theorem measurement_count_per_meter
    {F : Type} `{Float F} fuel n sd ed i urandom g start end_ :
  strptime sd = Some start -> strptime ed = Some end_ ->
  0 < i ->
  start + steps_between start end_ i * i <= MAX_MINUTES ->
  (Z.to_nat (steps_between start end_ i) <= fuel)%nat ->
  exists (ms : list (measurement F)) es,
    generate_smart_meter_data fuel n sd ed i urandom g = Returns (ms, es) /\
    grouped_by_meter
      (fun block _ => Z.of_nat (List.length block) = steps_between start end_ i)
      (make_meter_ids n urandom) ms es /\
    (NoDup (make_meter_ids n urandom) ->
     forall id, In id (make_meter_ids n urandom) ->
       Z.of_nat (List.length (measurements_of id ms)) = steps_between start end_ i).
Proof.
  intros Hs He Hi Hfit Hfuel.
  pose proof (strptime_range _ _ Hs) as [H0 _].
  destruct (for_meters_returns fuel start end_ i Hi H0 Hfuel Hfit
              (make_meter_ids n urandom) [] [] g) as (ms & es & g' & Hf).
  assert (Hg : generate_smart_meter_data fuel n sd ed i urandom g = Returns (ms, es)).
  { unfold generate_smart_meter_data. rewrite Hs, He, Hf. reflexivity. }
  assert (Hgr : grouped_by_meter
      (fun block _ => Z.of_nat (List.length block) = steps_between start end_ i)
      (make_meter_ids n urandom) ms es).
  { apply (generate_grouped _ _ _ _ _ _ _ _ _ _ Hg).
    intros start' end' id block Hs' He' (af & g0 & g1 & _ & Hrun).
    rewrite Hs in Hs'. rewrite He in He'. injection Hs' as <-. injection He' as <-.
    apply (run_length _ _ _ _ _ _ _ _ Hi Hrun). }
  exists ms, es. repeat split; auto.
  intros Hnd id Hin.
  destruct (grouped_measurements_of _ _ _ _ Hgr Hnd id Hin) as [_ Hlen].
  exact Hlen.
Qed.

Lemma measurement_count_per_meter_witness :
  exists (ms : list (measurement float)) es,
    generate_smart_meter_data 3 2 "01:01:2024 00:00" "01:01:2024 01:00" 30
      sample_urandom sample_rng = Returns (ms, es) /\
    grouped_by_meter
      (fun block _ => Z.of_nat (List.length block) = 3)
      (make_meter_ids 2 sample_urandom) ms es /\
    (NoDup (make_meter_ids 2 sample_urandom) ->
     forall id, In id (make_meter_ids 2 sample_urandom) ->
       Z.of_nat (List.length (measurements_of id ms)) = 3).
Proof.
  exact (measurement_count_per_meter (F := float) 3 2 "01:01:2024 00:00"
           "01:01:2024 01:00" 30 sample_urandom sample_rng
           1063994400 1063994460 eq_refl eq_refl eq_refl
           ltac:(vm_compute; discriminate) ltac:(vm_compute; lia)).
Defined.

(** C2: with well-formed dates and [start > end] the call returns two empty
    tables and raises nothing, whatever the number of meters, the interval
    and the fuel. *)
Theorem inverted_range_returns_empty_tables
    {F : Type} `{Float F} fuel n sd ed i urandom g start end_ :
  strptime sd = Some start -> strptime ed = Some end_ ->
  end_ < start ->
  generate_smart_meter_data (F := F) fuel n sd ed i urandom g = Returns ([], []).
Proof.
  intros Hs He Hlt. unfold generate_smart_meter_data. rewrite Hs, He.
  destruct (for_meters_past_end fuel start end_ i Hlt
              (make_meter_ids n urandom) [] [] g) as [g' ->].
  reflexivity.
Qed.

Lemma inverted_range_returns_empty_tables_witness :
  generate_smart_meter_data (F := float) 0 5
    "02:01:2024 00:00" "01:01:2024 00:00" 15 sample_urandom sample_rng
  = Returns ([], []).
Proof.
  exact (inverted_range_returns_empty_tables (F := float) 0 5
           "02:01:2024 00:00" "01:01:2024 00:00" 15 sample_urandom sample_rng
           1063995840 1063994400 eq_refl eq_refl eq_refl).
Defined.

(** C3, as stated, fails: the range from 2024-01-02 back to 2024-01-01 is
    inverted, and the call returns two empty tables instead of an error. *)
Lemma inverted_range_is_not_an_error :
  strptime "02:01:2024 00:00" = Some 1063995840 /\
  strptime "01:01:2024 00:00" = Some 1063994400 /\
  1063994400 < 1063995840 /\
  generate_smart_meter_data (F := float) 0 1
    "02:01:2024 00:00" "01:01:2024 00:00" 30 sample_urandom sample_rng
  = Returns ([], []).
Proof. repeat split; vm_compute; reflexivity. Qed.

(** C3 (amended): a date text that [strptime] rejects makes the call raise
    [ValueError] at once, before anything is generated; an inverted range
    is no error, the call returns two empty tables. *)
Theorem time_range_errors
    {F : Type} `{Float F} fuel n sd ed i urandom g :
  (strptime sd = None \/ strptime ed = None ->
   generate_smart_meter_data (F := F) fuel n sd ed i urandom g = Raises ValueError) /\
  (forall start end_,
     strptime sd = Some start -> strptime ed = Some end_ -> end_ < start ->
     generate_smart_meter_data (F := F) fuel n sd ed i urandom g = Returns ([], [])).
Proof.
  split.
  - unfold generate_smart_meter_data. intros [Hs|He].
    + rewrite Hs. reflexivity.
    + rewrite He. destruct (strptime sd); reflexivity.
  - intros start end_ Hs He Hlt.
    unfold generate_smart_meter_data. rewrite Hs, He.
    destruct (for_meters_past_end fuel start end_ i Hlt
                (make_meter_ids n urandom) [] [] g) as [g' Hf].
    rewrite Hf. reflexivity.
Qed.

(** C4: in binary64, within each meter's block of measurements, in the
    order they were generated, the imported energy, the exported energy and
    the maximum demand of a row compare [<=] with those of the next row:
    none of them decreases, and none is a NaN. *)
Theorem cumulative_fields_never_decrease
    fuel n sd ed i urandom g (ms : list (measurement float)) es :
  generate_smart_meter_data fuel n sd ed i urandom g = Returns (ms, es) ->
  grouped_by_meter
    (fun block _ =>
       Sorted float_le (map active_energy_import_kwh block) /\
       Sorted float_le (map active_energy_export_kwh block) /\
       Sorted float_le (map maximum_demand_kw block))
    (make_meter_ids n urandom) ms es.
Proof.
  intros Hg. apply (generate_grouped _ _ _ _ _ _ _ _ _ _ Hg).
  intros start end_ id block Hs _ (af & g0 & g1 & Hd & Hrun).
  apply strptime_range in Hs.
  apply binary64_abnormality_factor in Hd.
  apply binary64_run_energy in Hrun.
  - tauto.
  - exact Hd.
  - cbn [initial_state current_time]. lia.
  - left. cbn [initial_state cumulative_energy_import]. closed_float.
  - left. cbn [initial_state cumulative_energy_export]. closed_float.
  - cbn [initial_state max_demand]. closed_float.
Qed.

Lemma cumulative_fields_never_decrease_witness :
  exists (ms : list (measurement float)) es,
    generate_smart_meter_data 3 2 "01:01:2024 00:00" "01:01:2024 01:00" 30
      sample_urandom sample_rng = Returns (ms, es) /\
    grouped_by_meter
      (fun block _ =>
         Sorted float_le (map active_energy_import_kwh block) /\
         Sorted float_le (map active_energy_export_kwh block) /\
         Sorted float_le (map maximum_demand_kw block))
      (make_meter_ids 2 sample_urandom) ms es.
Proof.
  eexists. eexists. split; [vm_compute; reflexivity|].
  eapply (cumulative_fields_never_decrease 3 2 "01:01:2024 00:00"
           "01:01:2024 01:00" 30 sample_urandom sample_rng).
  vm_compute. reflexivity.
Defined.

(** C5: in every measurement the reactive energies are the products of the
    active energies by 0.15 (import) and by 0.1 (export), for every
    arithmetic. *)
Theorem reactive_energy_is_derived
    {F : Type} `{Float F} fuel n sd ed i urandom g (ms : list (measurement F)) es :
  generate_smart_meter_data fuel n sd ed i urandom g = Returns (ms, es) ->
  Forall (fun m =>
    reactive_energy_import_kvarh m = (active_energy_import_kwh m * lit 0.15)%pf /\
    reactive_energy_export_kvarh m = (active_energy_export_kwh m * lit 0.1)%pf) ms.
Proof.
  intros Hg. apply generate_blocks in Hg.
  destruct Hg as (start & end_ & blocks & _ & _ & -> & _ & Hb).
  apply Forall_concat. rewrite Forall_map.
  apply Forall_forall. intros block Hin.
  destruct (Forall2_In_r _ _ _ _ Hb Hin) as (id & _ & af & g0 & g1 & _ & Hrun).
  apply (run_reactive _ _ _ _ _ _ _ _ Hrun).
Qed.

Lemma reactive_energy_is_derived_witness :
  exists (ms : list (measurement float)) es,
    generate_smart_meter_data 3 2 "01:01:2024 00:00" "01:01:2024 01:00" 30
      sample_urandom sample_rng = Returns (ms, es) /\
    Forall (fun m =>
      reactive_energy_import_kvarh m = (active_energy_import_kwh m * lit 0.15)%pf /\
      reactive_energy_export_kvarh m = (active_energy_export_kwh m * lit 0.1)%pf) ms.
Proof.
  eexists. eexists. split; [vm_compute; reflexivity|].
  eapply (reactive_energy_is_derived (F := float) 3 2 "01:01:2024 00:00"
           "01:01:2024 01:00" 30 sample_urandom sample_rng).
  vm_compute. reflexivity.
Defined.


(** C7: both tables are grouped by meter, in the order of the meters, and
    within a meter's block the timestamps are in non-decreasing order. *)
Theorem tables_grouped_by_meter_in_time_order
    {F : Type} `{Float F} fuel n sd ed i urandom g (ms : list (measurement F)) es :
  generate_smart_meter_data fuel n sd ed i urandom g = Returns (ms, es) ->
  grouped_by_meter
    (fun measurement_block event_block =>
       Sorted Z.le (map timestamp measurement_block) /\
       Sorted Z.le (map event_timestamp event_block))
    (make_meter_ids n urandom) ms es.
Proof.
  intros Hg. apply (generate_grouped _ _ _ _ _ _ _ _ _ _ Hg).
  intros start end_ id block _ _ (af & g0 & g1 & _ & Hrun).
  apply run_timestamps in Hrun. destruct Hrun as (H1 & H2 & _).
  split; [apply strongly_sorted_lt_le|apply StronglySorted_Sorted]; assumption.
Qed.

Lemma tables_grouped_by_meter_in_time_order_witness :
  exists (ms : list (measurement float)) es,
    generate_smart_meter_data 3 2 "01:01:2024 00:00" "01:01:2024 01:00" 30
      sample_urandom sample_rng = Returns (ms, es) /\
    grouped_by_meter
      (fun measurement_block event_block =>
         Sorted Z.le (map timestamp measurement_block) /\
         Sorted Z.le (map event_timestamp event_block))
      (make_meter_ids 2 sample_urandom) ms es.
Proof.
  eexists. eexists. split; [vm_compute; reflexivity|].
  eapply (tables_grouped_by_meter_in_time_order (F := float) 3 2
           "01:01:2024 00:00" "01:01:2024 01:00" 30 sample_urandom sample_rng).
  vm_compute. reflexivity.
Defined.

(** C8: in binary64, every phase voltage of every measurement lies in
    [225.4, 234.6] and every power factor in [0.92, 0.99]: the comparisons
    with the two bounds hold, and the number the field stands for is in the
    interval. *)
Theorem voltages_and_power_factor_in_range
    fuel n sd ed i urandom g (ms : list (measurement float)) es :
  generate_smart_meter_data fuel n sd ed i urandom g = Returns (ms, es) ->
  Forall (fun m =>
    lies_in 225.4 234.6 (voltage_phase1_v m) /\
    lies_in 225.4 234.6 (voltage_phase2_v m) /\
    lies_in 225.4 234.6 (voltage_phase3_v m) /\
    lies_in 0.92 0.99 (power_factor m)) ms.
Proof.
  intros Hg. apply generate_blocks in Hg.
  destruct Hg as (start & end_ & blocks & _ & _ & -> & _ & Hb).
  apply Forall_concat. rewrite Forall_map.
  apply Forall_forall. intros block Hin.
  destruct (Forall2_In_r _ _ _ _ Hb Hin) as (id & _ & af & g0 & g1 & Hd & Hrun).
  exact (binary64_run_voltages _ _ _ _ _ _ _ _ Hrun).
Qed.

Lemma voltages_and_power_factor_in_range_witness :
  exists (ms : list (measurement float)) es,
    generate_smart_meter_data 3 2 "01:01:2024 00:00" "01:01:2024 01:00" 30
      sample_urandom sample_rng = Returns (ms, es) /\
    Forall (fun m =>
      lies_in 225.4 234.6 (voltage_phase1_v m) /\
      lies_in 225.4 234.6 (voltage_phase2_v m) /\
      lies_in 225.4 234.6 (voltage_phase3_v m) /\
      lies_in 0.92 0.99 (power_factor m)) ms.
Proof.
  eexists. eexists. split; [vm_compute; reflexivity|].
  eapply (voltages_and_power_factor_in_range 3 2 "01:01:2024 00:00"
           "01:01:2024 01:00" 30 sample_urandom sample_rng).
  vm_compute. reflexivity.
Defined.

(** C9: within a meter's block, at most two events carry any one timestamp
    (a step emits at most one abnormal-condition event and at most one random
    event), so the block has at most twice as many events as measurements. *)
Theorem at_most_two_events_per_step
    {F : Type} `{Float F} fuel n sd ed i urandom g (ms : list (measurement F)) es :
  generate_smart_meter_data fuel n sd ed i urandom g = Returns (ms, es) ->
  grouped_by_meter
    (fun measurement_block event_block =>
       (forall t, (List.length (events_at t event_block) <= 2)%nat) /\
       (List.length event_block <= 2 * List.length measurement_block)%nat)
    (make_meter_ids n urandom) ms es.
Proof.
  intros Hg. apply (generate_grouped _ _ _ _ _ _ _ _ _ _ Hg).
  intros start end_ id block _ _ (af & g0 & g1 & _ & Hrun).
  apply run_event_count in Hrun. tauto.
Qed.

Lemma at_most_two_events_per_step_witness :
  exists (ms : list (measurement float)) es,
    generate_smart_meter_data 3 2 "01:01:2024 00:00" "01:01:2024 01:00" 30
      sample_urandom sample_rng = Returns (ms, es) /\
    grouped_by_meter
      (fun measurement_block event_block =>
         (forall t, (List.length (events_at t event_block) <= 2)%nat) /\
         (List.length event_block <= 2 * List.length measurement_block)%nat)
      (make_meter_ids 2 sample_urandom) ms es.
Proof.
  eexists. eexists. split; [vm_compute; reflexivity|].
  eapply (at_most_two_events_per_step (F := float) 3 2
           "01:01:2024 00:00" "01:01:2024 01:00" 30 sample_urandom sample_rng).
  vm_compute. reflexivity.
Defined.

(** C10: every event has a measurement with the same meter identifier and
    the same timestamp. *)
Theorem every_event_has_its_measurement
    {F : Type} `{Float F} fuel n sd ed i urandom g (ms : list (measurement F)) es :
  generate_smart_meter_data fuel n sd ed i urandom g = Returns (ms, es) ->
  Forall (fun e =>
    exists m, In m ms /\ meter_id m = event_meter_id e /\
              timestamp m = event_timestamp e) es.
Proof.
  intros Hg. apply generate_blocks in Hg.
  destruct Hg as (start & end_ & blocks & _ & _ & -> & -> & Hb).
  apply Forall_concat. rewrite Forall_map.
  apply Forall_forall. intros block Hin.
  destruct (Forall2_In_r _ _ _ _ Hb Hin) as (id & _ & af & g0 & g1 & _ & Hrun).
  apply run_timestamps in Hrun. destruct Hrun as (_ & _ & _ & _ & Hev).
  eapply Forall_impl; [|exact Hev]. cbn. intros e (m & Hm & He).
  exists m. split; auto.
  apply in_concat. exists (fst block). split; auto.
  apply in_map. exact Hin.
Qed.

Lemma every_event_has_its_measurement_witness :
  exists (ms : list (measurement float)) es,
    generate_smart_meter_data 3 2 "01:01:2024 00:00" "01:01:2024 01:00" 30
      sample_urandom sample_rng = Returns (ms, es) /\
    Forall (fun e =>
      exists m, In m ms /\ meter_id m = event_meter_id e /\
                timestamp m = event_timestamp e) es.
Proof.
  eexists. eexists. split; [vm_compute; reflexivity|].
  eapply (every_event_has_its_measurement (F := float) 3 2
           "01:01:2024 00:00" "01:01:2024 01:00" 30 sample_urandom sample_rng).
  vm_compute. reflexivity.
Defined.

Lemma time_advance_past_the_calendar_raises_witness :
  generate_smart_meter_data (F := float) 2 3
    "31:12:9999 23:00" "31:12:9999 23:50" 30 sample_urandom sample_rng
  = Raises OverflowError.
Proof.
  exact (time_advance_past_the_calendar_raises (F := float) 2 3
           "31:12:9999 23:00" "31:12:9999 23:50" 30 sample_urandom sample_rng
           5258964900 5258964950 eq_refl eq_refl eq_refl eq_refl
           ltac:(vm_compute; discriminate) ltac:(vm_compute; reflexivity)
           ltac:(vm_compute; lia)).
Defined.

(** X2: the type of every event is one of the nine of [event_types]. *)
Theorem event_types_are_the_fixed_ones
    {F : Type} `{Float F} fuel n sd ed i urandom g (ms : list (measurement F)) es :
  generate_smart_meter_data fuel n sd ed i urandom g = Returns (ms, es) ->
  Forall (fun e => In (event_type e) event_types) es.
Proof.
  intros Hg. apply generate_blocks in Hg.
  destruct Hg as (start & end_ & blocks & _ & _ & _ & -> & Hb).
  apply Forall_concat. rewrite Forall_map.
  apply Forall_forall. intros block Hin.
  destruct (Forall2_In_r _ _ _ _ Hb Hin) as (id & _ & af & g0 & g1 & _ & Hrun).
  apply (run_event_types _ _ _ _ _ _ _ _ Hrun).
Qed.

Lemma event_types_are_the_fixed_ones_witness :
  exists (ms : list (measurement float)) es,
    generate_smart_meter_data 3 2 "01:01:2024 00:00" "01:01:2024 01:00" 30
      sample_urandom sample_rng = Returns (ms, es) /\
    Forall (fun e => In (event_type e) event_types) es.
Proof.
  eexists. eexists. split; [vm_compute; reflexivity|].
  eapply (event_types_are_the_fixed_ones (F := float) 3 2
            "01:01:2024 00:00" "01:01:2024 01:00" 30 sample_urandom sample_rng).
  vm_compute. reflexivity.
Defined.

(** X3: the measurements of a meter are stamped with [start],
    [start + interval_minutes], [start + 2 * interval_minutes] and so on, in
    this order. *)
Theorem measurements_follow_the_schedule
    {F : Type} `{Float F} fuel n sd ed i urandom g start
    (ms : list (measurement F)) es :
  strptime sd = Some start ->
  generate_smart_meter_data fuel n sd ed i urandom g = Returns (ms, es) ->
  grouped_by_meter
    (fun block _ => map timestamp block = schedule start i (List.length block))
    (make_meter_ids n urandom) ms es.
Proof.
  intros Hs Hg. apply (generate_grouped _ _ _ _ _ _ _ _ _ _ Hg).
  intros start' end_ id block Hs' _ (af & g0 & g1 & _ & Hrun).
  rewrite Hs in Hs'. injection Hs' as <-.
  apply (run_schedule _ _ _ _ _ _ _ _ Hrun).
Qed.

Lemma measurements_follow_the_schedule_witness :
  exists (ms : list (measurement float)) es,
    generate_smart_meter_data 3 1 "01:01:2024 00:00" "01:01:2024 01:00" 30
      sample_urandom sample_rng = Returns (ms, es) /\
    map timestamp ms = [1063994400; 1063994430; 1063994460] /\
    grouped_by_meter
      (fun block _ =>
         map timestamp block = schedule 1063994400 30 (List.length block))
      (make_meter_ids 1 sample_urandom) ms es.
Proof.
  eexists. eexists. split; [vm_compute; reflexivity|].
  split; [vm_compute; reflexivity|].
  eapply (measurements_follow_the_schedule (F := float) 3 1
            "01:01:2024 00:00" "01:01:2024 01:00" 30 sample_urandom sample_rng
            1063994400 _ _ eq_refl).
  vm_compute. reflexivity.
Defined.

(** ** Edges of the generator *)

Section GeneratorEdges.

Context {F : Type} `{Float F}.

Lemma make_meter_ids_length n urandom :
  List.length (make_meter_ids n urandom) = Z.to_nat n.
Proof. unfold make_meter_ids. rewrite length_map, length_seq. reflexivity. Qed.

(** An interval of zero minutes leaves the time where it is. *)
Lemma while_loop_stands_still fuel id ha af end_ :
  forall (st : meter_state F) ams aes g,
    0 <= current_time st <= MAX_MINUTES -> current_time st <= end_ ->
    while_loop fuel id ha af 0 end_ st ams aes g = OutOfFuel.
Proof.
  induction fuel as [|fuel IH]; intros st ams aes g Hr Hle; cbn [while_loop];
    pose proof Hle as E; apply Z.leb_le in E; rewrite E; [reflexivity|].
  destruct (step id ha af 0 st g) as [[[m events] st'] g1] eqn:Es.
  apply step_rows in Es. destruct Es as (_ & _ & Hct & _).
  unfold add_minutes. rewrite Hct.
  assert (Hin : (0 <=? current_time st + 0) && (current_time st + 0 <=? MAX_MINUTES) = true).
  { apply andb_true_intro. split; apply Z.leb_le; lia. }
  rewrite Hin. apply IH; cbn [current_time]; lia.
Qed.

(** A negative interval walks back to the first minute of the calendar. *)
Lemma while_loop_walks_back id ha af i end_ :
  i < 0 ->
  forall fuel (st : meter_state F) ams aes g,
    0 <= current_time st <= MAX_MINUTES -> current_time st <= end_ ->
    (Z.to_nat (current_time st / - i) < fuel)%nat ->
    while_loop fuel id ha af i end_ st ams aes g = Raises OverflowError.
Proof.
  intros Hi. induction fuel as [|fuel IH]; intros st ams aes g Hr Hle Hfuel;
    [lia|].
  cbn [while_loop]. pose proof Hle as E. apply Z.leb_le in E. rewrite E.
  destruct (step id ha af i st g) as [[[m events] st'] g1] eqn:Es.
  apply step_rows in Es. destruct Es as (_ & _ & Hct & _).
  unfold add_minutes. rewrite Hct.
  destruct ((0 <=? current_time st + i) && (current_time st + i <=? MAX_MINUTES)) eqn:Hin;
    [|reflexivity].
  apply andb_prop in Hin. destruct Hin as [Hin _]. apply Z.leb_le in Hin.
  apply IH; cbn [current_time]; try lia.
  replace (current_time st + i) with (current_time st + (-1) * (- i)) by lia.
  rewrite Z.div_add by lia.
  assert (1 <= current_time st / - i).
  { apply Z.div_le_lower_bound; lia. }
  lia.
Qed.

Lemma run_within id ha af i end_ (st : meter_state F) ms es :
  meter_run id ha af i end_ st ms es ->
  Forall (fun m => current_time st <= timestamp m <= end_) ms /\
  Forall (fun e => current_time st <= event_timestamp e <= end_) es.
Proof.
  intros Hrun.
  pose proof (run_timestamps _ _ _ _ _ _ _ _ Hrun) as (_ & _ & Hm & He & _).
  split.
  - clear He. induction Hrun as [|st g m events st' g' t ms es Hle Hs Ht Hr IH];
      [constructor|].
    apply step_rows in Hs. destruct Hs as (_ & Hts & Hct & _).
    inversion Hm as [|? ? Hm1 Hm2]; subst.
    constructor; [lia|].
    pose proof (run_timestamps _ _ _ _ _ _ _ _ Hr) as (_ & _ & Hm' & _).
    specialize (IH Hm').
    apply Forall_forall. intros m' Hin.
    rewrite Forall_forall in IH, Hm2. specialize (IH m' Hin).
    specialize (Hm2 m' Hin). cbn in *. lia.
  - clear Hm. induction Hrun as [|st g m events st' g' t ms es Hle Hs Ht Hr IH];
      [constructor|].
    apply step_rows in Hs. destruct Hs as (_ & _ & Hct & _ & Hev).
    apply Forall_app in He. destruct He as [He1 He2].
    pose proof (run_timestamps _ _ _ _ _ _ _ _ Hr) as (_ & _ & _ & He' & _).
    specialize (IH He').
    apply Forall_app. split.
    + eapply Forall_impl; [|exact Hev]. cbn. intros e [_ He]. lia.
    + apply Forall_forall. intros e Hin.
      rewrite Forall_forall in IH, He2. specialize (IH e Hin).
      specialize (He2 e Hin). cbn in *. lia.
Qed.

Lemma strictly_sorted_nodup l : StronglySorted Z.lt l -> NoDup l.
Proof.
  induction 1 as [|a l Hs IH Hf]; constructor; auto.
  intros Hin. rewrite Forall_forall in Hf. specialize (Hf a Hin). lia.
Qed.

Lemma blocks_carry_their_ids ids (blocks : list (list (measurement F) * list event)) :
  Forall2 (fun id block =>
             Forall (fun m => meter_id m = id) (fst block) /\
             StronglySorted Z.lt (map timestamp (fst block))) ids blocks ->
  Forall (fun m => In (meter_id m) ids) (List.concat (map fst blocks)).
Proof.
  induction 1 as [|id block ids blocks [Hid Hs] HF IH]; cbn [map List.concat];
    [constructor|].
  apply Forall_app. split.
  - eapply Forall_impl; [|exact Hid]. cbn. intros m Hm. left. auto.
  - eapply Forall_impl; [|exact IH]. cbn. intros m Hm. right. auto.
Qed.

Lemma blocks_have_distinct_keys ids (blocks : list (list (measurement F) * list event)) :
  Forall2 (fun id block =>
             Forall (fun m => meter_id m = id) (fst block) /\
             StronglySorted Z.lt (map timestamp (fst block))) ids blocks ->
  NoDup ids ->
  NoDup (map (fun m => (meter_id m, timestamp m)) (List.concat (map fst blocks))).
Proof.
  intros HF. pose proof (blocks_carry_their_ids _ _ HF) as Hall. revert Hall.
  induction HF as [|id block ids blocks [Hid Hs] HF IH]; intros Hall Hnd.
  - cbn. constructor.
  - inversion Hnd as [|? ? Hnotin Hnd']; subst.
    pose proof (blocks_carry_their_ids _ _ HF) as Hrest.
    cbn [map List.concat]. rewrite map_app. apply NoDup_app; auto.
    + apply NoDup_map_inv with (f := snd). rewrite map_map. cbn [snd].
      apply strictly_sorted_nodup. exact Hs.
    + intros [id' t] Hin1 Hin2.
      apply in_map_iff in Hin1. destruct Hin1 as (m1 & E1 & Hm1).
      apply in_map_iff in Hin2. destruct Hin2 as (m2 & E2 & Hm2).
      rewrite Forall_forall in Hid, Hrest.
      specialize (Hid m1 Hm1). specialize (Hrest m2 Hm2).
      injection E1 as E1 _. injection E2 as E2 _.
      apply Hnotin. congruence.
Qed.

Lemma generate_strict_blocks fuel n sd ed i urandom g (ms : list (measurement F)) es :
  generate_smart_meter_data fuel n sd ed i urandom g = Returns (ms, es) ->
  exists blocks : list (list (measurement F) * list event),
    ms = List.concat (map fst blocks) /\
    Forall2 (fun id block =>
               Forall (fun m => meter_id m = id) (fst block) /\
               StronglySorted Z.lt (map timestamp (fst block)))
      (make_meter_ids n urandom) blocks.
Proof.
  intros Hg. apply generate_blocks in Hg.
  destruct Hg as (start & end_ & blocks & _ & _ & -> & _ & Hb).
  exists blocks. split; [reflexivity|].
  eapply Forall2_impl; [|exact Hb]. intros id block (af & g0 & g1 & _ & Hrun).
  split.
  - apply (run_rows _ _ _ _ _ _ _ _ Hrun).
  - apply (run_timestamps _ _ _ _ _ _ _ _ Hrun).
Qed.

Lemma blocks_total (k : nat) (blocks : list (list (measurement F) * list event)) :
  Forall (fun block => List.length (fst block) = k /\
                       (List.length (snd block) <= 2 * k)%nat) blocks ->
  List.length (List.concat (map fst blocks)) = (List.length blocks * k)%nat /\
  (List.length (List.concat (map snd blocks)) <= 2 * (List.length blocks * k))%nat.
Proof.
  induction 1 as [|block blocks [H1 H2] _ [IH1 IH2]]; cbn [map List.concat List.length].
  - split; reflexivity.
  - rewrite !length_app, IH1, H1. split; lia.
Qed.

End GeneratorEdges.

(** X4: with a meter count of zero or below and well-formed dates the call
    returns two empty tables, whatever the interval (zero and negative ones
    included), the range and the fuel. *)
Theorem no_meter_no_row
    {F : Type} `{Float F} fuel n sd ed i urandom g start end_ :
  n <= 0 ->
  strptime sd = Some start -> strptime ed = Some end_ ->
  generate_smart_meter_data (F := F) fuel n sd ed i urandom g = Returns ([], []).
Proof.
  intros Hn Hs He. unfold generate_smart_meter_data, make_meter_ids.
  rewrite Hs, He. replace (Z.to_nat n) with O by lia. reflexivity.
Qed.

Lemma no_meter_no_row_witness :
  generate_smart_meter_data (F := float) 0 (-3)
    "01:01:2024 00:00" "02:01:2024 00:00" 0 sample_urandom sample_rng
  = Returns ([], []).
Proof.
  exact (no_meter_no_row (F := float) 0 (-3)
           "01:01:2024 00:00" "02:01:2024 00:00" 0 sample_urandom sample_rng
           1063994400 1063995840 ltac:(lia) eq_refl eq_refl).
Defined.

(** X5: with an interval of zero minutes, at least one meter and
    [start <= end], the loop of the first meter never ends: the call has no
    outcome, however much fuel it is given. *)
Theorem zero_interval_never_returns
    {F : Type} `{Float F} n sd ed urandom g start end_ :
  0 < n ->
  strptime sd = Some start -> strptime ed = Some end_ ->
  start <= end_ ->
  forall fuel,
    generate_smart_meter_data (F := F) fuel n sd ed 0 urandom g = OutOfFuel.
Proof.
  intros Hn Hs He Hle fuel.
  pose proof (strptime_range _ _ Hs) as Hr.
  destruct (make_meter_ids_cons n urandom Hn) as (id & ids & Hids).
  unfold generate_smart_meter_data. rewrite Hs, He, Hids. cbn [for_meters].
  destruct (draw_abnormality_factor g) as [af g1].
  rewrite while_loop_stands_still by (cbn [initial_state current_time]; lia).
  reflexivity.
Qed.

Lemma zero_interval_never_returns_witness :
  generate_smart_meter_data (F := float) 0 1
    "01:01:2024 00:00" "01:01:2024 00:00" 0 sample_urandom sample_rng
  = OutOfFuel /\
  generate_smart_meter_data (F := float) 1000 1
    "01:01:2024 00:00" "01:01:2024 00:00" 0 sample_urandom sample_rng
  = OutOfFuel.
Proof.
  pose proof (zero_interval_never_returns (F := float) 1
                "01:01:2024 00:00" "01:01:2024 00:00" sample_urandom sample_rng
                1063994400 1063994400 eq_refl eq_refl eq_refl
                ltac:(vm_compute; discriminate)) as Hz.
  exact (conj (Hz 0%nat) (Hz 1000%nat)).
Defined.

(** X6: with a negative interval, at least one meter and [start <= end], the
    time walks back from [start] until an advance would fall before
    0001-01-01 00:00, and the call raises [OverflowError]; the fuel has to
    cover the steps taken on the way. *)
Theorem negative_interval_raises
    {F : Type} `{Float F} fuel n sd ed i urandom g start end_ :
  0 < n -> i < 0 ->
  strptime sd = Some start -> strptime ed = Some end_ ->
  start <= end_ ->
  (Z.to_nat (start / - i) < fuel)%nat ->
  generate_smart_meter_data (F := F) fuel n sd ed i urandom g
  = Raises OverflowError.
Proof.
  intros Hn Hi Hs He Hle Hfuel.
  pose proof (strptime_range _ _ Hs) as Hr.
  destruct (make_meter_ids_cons n urandom Hn) as (id & ids & Hids).
  unfold generate_smart_meter_data. rewrite Hs, He, Hids. cbn [for_meters].
  destruct (draw_abnormality_factor g) as [af g1].
  rewrite (while_loop_walks_back id (has_abnormality_of af) af i end_ Hi fuel
             (initial_state start) [] [] g1) by assumption.
  reflexivity.
Qed.

Lemma negative_interval_raises_witness :
  generate_smart_meter_data (F := float) 3 1
    "01:01:0001 01:00" "01:01:0001 02:00" (-30) sample_urandom sample_rng
  = Raises OverflowError.
Proof.
  exact (negative_interval_raises (F := float) 3 1
           "01:01:0001 01:00" "01:01:0001 02:00" (-30) sample_urandom sample_rng
           60 120 eq_refl eq_refl eq_refl eq_refl
           ltac:(vm_compute; discriminate) ltac:(vm_compute; lia)).
Defined.

(** X7: for a positive interval, the measurements table of a call that
    returns has as many rows as there are meters times steps, and the events
    table at most twice as many. *)
Theorem row_totals
    {F : Type} `{Float F} fuel n sd ed i urandom g start end_
    (ms : list (measurement F)) es :
  strptime sd = Some start -> strptime ed = Some end_ ->
  0 < i ->
  generate_smart_meter_data fuel n sd ed i urandom g = Returns (ms, es) ->
  Z.of_nat (List.length ms) = Z.max 0 n * steps_between start end_ i /\
  (List.length es <= 2 * List.length ms)%nat.
Proof.
  intros Hs He Hi Hg. apply generate_blocks in Hg.
  destruct Hg as (start' & end' & blocks & Hs' & He' & -> & -> & Hb).
  rewrite Hs in Hs'. rewrite He in He'. injection Hs' as <-. injection He' as <-.
  pose proof (steps_between_nonneg start end_ i Hi) as Hk.
  assert (Hall : Forall (fun block =>
            List.length (fst block) = Z.to_nat (steps_between start end_ i) /\
            (List.length (snd block) <= 2 * Z.to_nat (steps_between start end_ i))%nat)
            blocks).
  { apply Forall_forall. intros block Hin.
    destruct (Forall2_In_r _ _ _ _ Hb Hin) as (id & _ & af & g0 & g1 & _ & Hrun).
    pose proof (run_length _ _ _ _ _ _ _ _ Hi Hrun) as Hlen.
    pose proof (run_event_count _ _ _ _ _ _ _ _ Hrun) as [Hev _].
    cbn [initial_state current_time] in Hlen. split; lia. }
  apply blocks_total in Hall. destruct Hall as [H1 H2].
  rewrite <- (Forall2_length Hb), make_meter_ids_length in H1, H2.
  split; [|lia]. rewrite H1. nia.
Qed.

Lemma row_totals_witness :
  exists (ms : list (measurement float)) es,
    generate_smart_meter_data 3 2 "01:01:2024 00:00" "01:01:2024 01:00" 30
      sample_urandom sample_rng = Returns (ms, es) /\
    Z.of_nat (List.length ms) = 6 /\
    (List.length es <= 2 * List.length ms)%nat.
Proof.
  eexists. eexists. split; [vm_compute; reflexivity|].
  eapply (row_totals (F := float) 3 2 "01:01:2024 00:00" "01:01:2024 01:00" 30
            sample_urandom sample_rng 1063994400 1063994460 _ _
            eq_refl eq_refl eq_refl).
  vm_compute. reflexivity.
Defined.

(** X8: every measurement and every event is stamped within the range:
    no earlier than [start], no later than [end]. *)
Theorem timestamps_within_range
    {F : Type} `{Float F} fuel n sd ed i urandom g start end_
    (ms : list (measurement F)) es :
  strptime sd = Some start -> strptime ed = Some end_ ->
  generate_smart_meter_data fuel n sd ed i urandom g = Returns (ms, es) ->
  Forall (fun m => start <= timestamp m <= end_) ms /\
  Forall (fun e => start <= event_timestamp e <= end_) es.
Proof.
  intros Hs He Hg. apply generate_blocks in Hg.
  destruct Hg as (start' & end' & blocks & Hs' & He' & -> & -> & Hb).
  rewrite Hs in Hs'. rewrite He in He'. injection Hs' as <-. injection He' as <-.
  split; apply Forall_concat; rewrite Forall_map; apply Forall_forall;
    intros block Hin;
    destruct (Forall2_In_r _ _ _ _ Hb Hin) as (id & _ & af & g0 & g1 & _ & Hrun);
    apply run_within in Hrun; tauto.
Qed.

Lemma timestamps_within_range_witness :
  exists (ms : list (measurement float)) es,
    generate_smart_meter_data 3 2 "01:01:2024 00:00" "01:01:2024 01:00" 30
      sample_urandom sample_rng = Returns (ms, es) /\
    Forall (fun m => 1063994400 <= timestamp m <= 1063994460) ms /\
    Forall (fun e => 1063994400 <= event_timestamp e <= 1063994460) es.
Proof.
  eexists. eexists. split; [vm_compute; reflexivity|].
  eapply (timestamps_within_range (F := float) 3 2
            "01:01:2024 00:00" "01:01:2024 01:00" 30
            sample_urandom sample_rng 1063994400 1063994460 _ _ eq_refl eq_refl).
  vm_compute. reflexivity.
Defined.

(** X9: every measurement carries the identifier of one of the meters, and
    when the identifiers are distinct no two measurements share both their
    meter and their timestamp. *)
Theorem measurement_keys_are_unique
    {F : Type} `{Float F} fuel n sd ed i urandom g (ms : list (measurement F)) es :
  generate_smart_meter_data fuel n sd ed i urandom g = Returns (ms, es) ->
  Forall (fun m => In (meter_id m) (make_meter_ids n urandom)) ms /\
  (NoDup (make_meter_ids n urandom) ->
   NoDup (map (fun m => (meter_id m, timestamp m)) ms)).
Proof.
  intros Hg. apply generate_strict_blocks in Hg.
  destruct Hg as (blocks & -> & Hb). split.
  - apply (blocks_carry_their_ids _ _ Hb).
  - apply (blocks_have_distinct_keys _ _ Hb).
Qed.

Lemma sample_ids_are_distinct : NoDup (make_meter_ids 2 sample_urandom).
Proof.
  vm_compute. repeat constructor; cbn; intuition discriminate.
Qed.

Lemma measurement_keys_are_unique_witness :
  exists (ms : list (measurement float)) es,
    generate_smart_meter_data 3 2 "01:01:2024 00:00" "01:01:2024 01:00" 30
      sample_urandom sample_rng = Returns (ms, es) /\
    Forall (fun m => In (meter_id m) (make_meter_ids 2 sample_urandom)) ms /\
    NoDup (map (fun m => (meter_id m, timestamp m)) ms).
Proof.
  eexists. eexists. split; [vm_compute; reflexivity|].
  refine (let Hk := measurement_keys_are_unique (F := float) 3 2
                      "01:01:2024 00:00" "01:01:2024 01:00" 30
                      sample_urandom sample_rng _ _ _ in
          conj (proj1 Hk) (proj2 Hk sample_ids_are_distinct)).
  vm_compute. reflexivity.
Defined.

(** ** More of the generator in binary64 *)

(** X10: in binary64 the clamp of line 79 never changes the load factor: the
    base load of any hour times the jitter of line 78 already lies in
    [0.28, 0.95], inside the clamping bounds 0.2 and 1.0. *)
Theorem load_factor_clamp_is_idle (hour : Z) (g : rng) :
  let load_factor :=
    (base_load_factor (F := float) hour
     * fst (uniform (F := float) (lit 0.95) (lit 1.05) g))%pf in
  py_min (py_max load_factor (lit 0.2)) (lit 1.0) = load_factor /\
  lies_in 0.28 0.95 load_factor.
Proof.
  cbv [uniform random bind next_draw ret fst].
  destruct (binary64_load_factor hour (g 0%nat)) as [E W].
  cbv zeta in E, W |- *. split; [exact E|].
  eapply within_lies_in; [exact W| | | | | |]; closed_float.
Qed.

(** X11: in binary64 every phase current of every measurement lies in
    [18.95, 129] (100 A times the load, the abnormality factor and a jitter)
    and every maximum demand in [3.67, 22.61]. *)
Theorem currents_and_demand_in_range
    fuel n sd ed i urandom g (ms : list (measurement float)) es :
  generate_smart_meter_data fuel n sd ed i urandom g = Returns (ms, es) ->
  Forall (fun m =>
    lies_in 18.95 129 (current_phase1_a m) /\
    lies_in 18.95 129 (current_phase2_a m) /\
    lies_in 18.95 129 (current_phase3_a m) /\
    lies_in 3.67 22.61 (maximum_demand_kw m)) ms.
Proof.
  intros Hg. apply generate_blocks in Hg.
  destruct Hg as (start & end_ & blocks & _ & _ & -> & _ & Hb).
  apply Forall_concat. rewrite Forall_map.
  apply Forall_forall. intros block Hin.
  destruct (Forall2_In_r _ _ _ _ Hb Hin) as (id & _ & af & g0 & g1 & Hd & Hrun).
  apply binary64_abnormality_factor in Hd.
  apply (binary64_run_currents _ _ _ _ _ _ _ _) in Hrun;
    [|exact Hd
     |cbn [initial_state max_demand]; closed_float
     |cbn [initial_state max_demand]; closed_float].
  eapply Forall_impl; [|exact Hrun]. cbv beta.
  intros m (C1 & C2 & C3 & D).
  split; [|split; [|split]];
    (eapply within_lies_in; [eassumption| | | | | |]; closed_float).
Qed.

Lemma currents_and_demand_in_range_witness :
  exists (ms : list (measurement float)) es,
    generate_smart_meter_data 3 2 "01:01:2024 00:00" "01:01:2024 01:00" 30
      sample_urandom sample_rng = Returns (ms, es) /\
    Forall (fun m =>
      lies_in 18.95 129 (current_phase1_a m) /\
      lies_in 18.95 129 (current_phase2_a m) /\
      lies_in 18.95 129 (current_phase3_a m) /\
      lies_in 3.67 22.61 (maximum_demand_kw m)) ms.
Proof.
  eexists. eexists. split; [vm_compute; reflexivity|].
  eapply (currents_and_demand_in_range 3 2 "01:01:2024 00:00"
            "01:01:2024 01:00" 30 sample_urandom sample_rng).
  vm_compute. reflexivity.
Defined.

(** ** The command-line entry point *)

Example py_int_on_examples :
  map py_int [" 42 "; "-7"; "+5"; "1_000"; "007"; "1__0"; "_1"; "1_"; "";
              "+"; "4 2"; "1.5"; "0x10"]
  = [Some 42; Some (-7); Some 5; Some 1000; Some 7; None; None; None; None;
     None; None; None; None].
Proof. reflexivity. Qed.

(** A tab and a line feed are blanks of [int]; the separator 28 is not. *)
Example py_int_on_blanks :
  py_int (String "009" ("5" ++ String "010" "")) = Some 5 /\
  py_int (String "028" "5") = None.
Proof. split; reflexivity. Qed.

Example main_stops_at_a_bad_date :
  main (F := float) 3 ["1"; "01:01:2024 00:00"; "tomorrow"; "30"]
    sample_urandom sample_rng
  = ([Prompted "Enter number of smart meters: ";
      Prompted "Enter start date (dd:mm:yyyy HH:MM): ";
      Prompted "Enter end date (dd:mm:yyyy HH:MM): ";
      Prompted "Enter interval in minutes (15 or 30): "],
     Failed ValueError).
Proof. vm_compute. reflexivity. Qed.

(** X14: a run of [main] that does not finish (bad number, bad date, time
    advance past the calendar, end of input, loop without end) has written
    no file and printed nothing: all it has done is show at most four
    prompts. *)
Theorem main_fails_without_output
    {F : Type} `{Float F} fuel stdin urandom g (trace : list (effect F)) result :
  main fuel stdin urandom g = (trace, result) ->
  result <> Finished ->
  Forall is_prompt trace /\ (List.length trace <= 4)%nat.
Proof.
  unfold main. intros Hm Hne.
  repeat match type of Hm with
         | match ?x with _ => _ end = _ => destruct x
         | (let '(_, _) := ?x in _) = _ => destruct x
         end;
    injection Hm as <- <-; try congruence;
    cbn [app List.length]; split; try lia; repeat constructor.
Qed.

Lemma main_fails_without_output_witness :
  Forall is_prompt
    (fst (main (F := float) 3 ["2"; "01:01:2024 00:00"; "31:12:9999 23:59"; "0"]
            sample_urandom sample_rng)) /\
  (List.length
     (fst (main (F := float) 3 ["2"; "01:01:2024 00:00"; "31:12:9999 23:59"; "0"]
             sample_urandom sample_rng)) <= 4)%nat.
Proof.
  refine (main_fails_without_output (F := float) 3
            ["2"; "01:01:2024 00:00"; "31:12:9999 23:59"; "0"]
            sample_urandom sample_rng
            (fst (main (F := float) 3
                    ["2"; "01:01:2024 00:00"; "31:12:9999 23:59"; "0"]
                    sample_urandom sample_rng))
            Unfinished _ _).
  - vm_compute. reflexivity.
  - discriminate.
Defined.

(** X15: when the four lines read well, the interval is positive and the
    time advance after the last step stays in the calendar, [main] finishes:
    it saves the two tables the generator returned, each under its file
    name, and the summary line it prints counts meters times steps
    measurements and the events of the events table. *)
Theorem main_reports_what_it_generated
    {F : Type} `{Float F} fuel line1 line2 line3 line4 rest urandom g
    n start end_ i :
  py_int line1 = Some n ->
  strptime line2 = Some start -> strptime line3 = Some end_ ->
  py_int line4 = Some i ->
  0 < i ->
  start + steps_between start end_ i * i <= MAX_MINUTES ->
  (Z.to_nat (steps_between start end_ i) <= fuel)%nat ->
  exists (ms : list (measurement F)) es trace,
    generate_smart_meter_data fuel n line2 line3 i urandom g = Returns (ms, es) /\
    main fuel (line1 :: line2 :: line3 :: line4 :: rest) urandom g
    = (trace, Finished) /\
    In (SavedMeasurements "./smart_meter_measurements.csv" ms) trace /\
    In (SavedEvents "./smart_meter_events.csv" es) trace /\
    In (Printed (summary_line
                   (Z.to_nat (Z.max 0 n * steps_between start end_ i))
                   (List.length es))) trace.
Proof.
  intros H1 Hs He H4 Hi Hfit Hfuel.
  pose proof (strptime_range _ _ Hs) as [H0 _].
  destruct (for_meters_returns fuel start end_ i Hi H0 Hfuel Hfit
              (make_meter_ids n urandom) [] [] g) as (ms & es & g' & Hf).
  assert (Hg : generate_smart_meter_data fuel n line2 line3 i urandom g
               = Returns (ms, es)).
  { unfold generate_smart_meter_data. rewrite Hs, He, Hf. reflexivity. }
  assert (Hlen : List.length ms
                 = Z.to_nat (Z.max 0 n * steps_between start end_ i)).
  { pose proof (generate_blocks _ _ _ _ _ _ _ _ _ Hg)
      as (start' & end' & blocks & Hs' & He' & -> & _ & Hb).
    rewrite Hs in Hs'. rewrite He in He'. injection Hs' as <-. injection He' as <-.
    pose proof (steps_between_nonneg start end_ i Hi) as Hk.
    assert (Hall : Forall (fun block =>
              List.length (fst block) = Z.to_nat (steps_between start end_ i) /\
              (List.length (snd block)
               <= 2 * Z.to_nat (steps_between start end_ i))%nat) blocks).
    { apply Forall_forall. intros block Hin.
      destruct (Forall2_In_r _ _ _ _ Hb Hin) as (id & _ & af & g0 & g1 & _ & Hrun).
      pose proof (run_length _ _ _ _ _ _ _ _ Hi Hrun) as Hlen.
      pose proof (run_event_count _ _ _ _ _ _ _ _ Hrun) as [Hev _].
      cbn [initial_state current_time] in Hlen. split; lia. }
    apply blocks_total in Hall. destruct Hall as [Hall _].
    rewrite <- (Forall2_length Hb), make_meter_ids_length in Hall.
    rewrite Hall. nia. }
  exists ms, es. eexists. split; [exact Hg|].
  unfold main. rewrite H1, H4, Hg. split; [reflexivity|].
  rewrite <- Hlen. unfold report.
  repeat split; apply in_or_app; right; cbn; tauto.
Qed.

Lemma main_reports_what_it_generated_witness :
  exists (ms : list (measurement float)) es trace,
    generate_smart_meter_data 3 2 "01:01:2024 00:00" "01:01:2024 01:00" 30
      sample_urandom sample_rng = Returns (ms, es) /\
    main 3 ["2"; "01:01:2024 00:00"; "01:01:2024 01:00"; "30"]
      sample_urandom sample_rng = (trace, Finished) /\
    In (SavedMeasurements "./smart_meter_measurements.csv" ms) trace /\
    In (SavedEvents "./smart_meter_events.csv" es) trace /\
    In (Printed (summary_line 6 (List.length es))) trace.
Proof.
  exact (main_reports_what_it_generated (F := float) 3
           "2" "01:01:2024 00:00" "01:01:2024 01:00" "30" []
           sample_urandom sample_rng 2 1063994400 1063994460 30
           eq_refl eq_refl eq_refl eq_refl eq_refl
           ltac:(vm_compute; discriminate) ltac:(vm_compute; lia)).
Defined.

Example summary_line_of_six_and_ten :
  summary_line 6 10
  = String "010" "Generated 6 measurements and 10 events".
Proof. reflexivity. Qed.
